(** * rosgo: the TCPROS publish side and the node coordinator

    A shallow embedding of [ros/node.go] and of the publisher source
    (the [defaultPublisher] control loop and [remoteSubscriberSession]),
    with the properties the specification states about them and
    further properties of the code.

    Conventions of the embedding.
    - A goroutine is a function from the events its [select] receives
      (and the results of the I/O calls it makes) to the list of effects
      it performs and the state it ends in.
    - A channel variable is [option nat]: [None] is the nil channel (a
      field that no [make] ever initialised), [Some c] a channel made
      with buffer capacity [c].
    - Pointers ([*remoteSubscriberSession], [*defaultPublisher], ...)
      are addresses into a store; an [interface{}] value is an [iface].
    - Calls on the logger are not modelled, except the fatal ones, which
      end the process. *)

From Stdlib Require Import ZArith Lia Bool Ascii String.
From Stdlib Require Import DecimalString DecimalN DecimalPos DecimalFacts.
From stdpp Require Import gmap strings list fin_maps.

Local Open Scope string_scope.
Local Open Scope list_scope.
Set Warnings "-register-all".

(** ** Values shared by the three source files *)

Definition ptr := nat.

(** A channel variable: [None] for nil, [Some cap] once made. *)
Definition chan := option nat.

(** The [error] values the code builds or receives. *)
Inductive error :=
| errorString (s : string)               (* errors.New(s) *)
| netError (timeout : bool) (s : string) (* a net.Error *)
| numError (s : string).                 (* *strconv.NumError *)

Definition error_eqb (a b : error) : bool :=
  match a, b with
  | errorString s, errorString t => String.eqb s t
  | netError x s, netError y t => Bool.eqb x y && String.eqb s t
  | numError s, numError t => String.eqb s t
  | _, _ => false
  end.

(** [interface{}]: the dynamic type is the constructor. *)
Inductive iface :=
| INil
| IBool (b : bool)
| IInt (z : Z)
| IString (s : string)
| ISlice (l : list iface)    (* []interface{} *)
| ISession (p : ptr)         (* *remoteSubscriberSession *)
| IPublisher (p : ptr)       (* *defaultPublisher *)
| IError (e : error).

(** Go's [==] on two interface values: equal dynamic types and equal
    values; two slices cannot be compared (a run-time panic, [None]). *)
Definition iface_eq (a b : iface) : option bool :=
  match a, b with
  | INil, INil => Some true
  | IBool x, IBool y => Some (Bool.eqb x y)
  | IInt x, IInt y => Some (Z.eqb x y)
  | IString x, IString y => Some (String.eqb x y)
  | ISlice _, ISlice _ => None
  | ISession p, ISession q => Some (Nat.eqb p q)
  | IPublisher p, IPublisher q => Some (Nat.eqb p q)
  | IError e, IError f => Some (error_eqb e f)
  | _, _ => Some false
  end.

(** [message.go]: the [MessageType] interface, by what its methods return. *)
Record MessageType := {
  Text : string;
  MD5Sum : string;
  Name : string
}.

Definition payload := list Byte.byte.

(** One entry of a TCPROS connection header. *)
Record header := { key : string; value : string }.

(** A TCP listener, by the endpoint it is bound to. *)
Record Listener := { lhost : string; lport : N }.

(** [strconv.Itoa] on a port number. *)
Definition itoa (n : N) : string := NilZero.string_of_uint (N.to_uint n).

(** [strconv.ParseInt(s, 10, 32)]: an optional sign, then decimal digits
    only, and the value within 32 bits. *)
Definition ParseInt (s : string) : Z + error :=
  let '(neg, digits) :=
    match s with
    | String "+"%char r => (false, r)
    | String "-"%char r => (true, r)
    | _ => (false, s)
    end in
  match digits with
  | EmptyString => inr (numError "invalid syntax")
  | _ =>
      match NilZero.uint_of_string digits with
      | None => inr (numError "invalid syntax")
      | Some d =>
          let un := Z.of_N (N.of_uint d) in
          if neg then
            if (un <=? 2 ^ 31)%Z then inl (- un)%Z
            else inr (numError "value out of range")
          else
            if (un <? 2 ^ 31)%Z then inl un
            else inr (numError "value out of range")
      end
  end.

(** [net.SplitHostPort(l.Addr().String())] for a listener on an IPv4
    address: the host and the port in decimal. *)
Definition SplitHostPort_Addr (l : Listener) : string * string :=
  (lhost l, itoa (lport l)).

(** ** The session of one remote subscriber *)

Module Session.

Record remoteSubscriberSession := {
  conn : nat;
  nodeId : string;
  topic : string;
  md5sum : string;
  typeName : string;
  quitChan : chan;
  msgChan : chan;
  errorChan : chan
}.

(** What [start] does to the outside. *)
Inductive effect :=
| ConnWriteHeader (hs : list header)   (* writeConnectionHeader *)
| ConnSetDeadline
| ConnWriteSize (size : Z)             (* binary.Write of the uint32 *)
| ConnWritePayload (msg : payload)     (* conn.Write(msg) *)
| ErrorChanSend (e : error).           (* session.errorChan <- e *)

(** How a write on the connection ends. *)
Inductive write_result :=
| WriteOk
| WriteTimeout
| WriteError (e : error).

(** What one turn of the streaming [select] receives. *)
Inductive event :=
| msgChanRecv (msg : payload)
| quitChanRecv
| timeAfter (sizeWrite payloadWrite : write_result).

(** How the goroutine stands when the events are used up. *)
Inductive final :=
| Streaming (queue : list payload)  (* still in the loop *)
| Returned                          (* quitChan *)
| Reported (e : error)              (* panicked; the error was sent *)
| BlockedOnNilChan (e : error)      (* panicked; the send never completes *)
| LoggedUnknown.                    (* panicked with a non-error value *)

Definition queueMaxSize : nat := 100.

(** Lines 199-202: drop the front entry when full, then push back. *)
Definition enqueue (queue : list payload) (msg : payload) : list payload :=
  (if Nat.eqb (length queue) queueMaxSize then tail queue else queue) ++ [msg].

(** The deferred function: [recover], then report an [error] value. *)
Definition recovered (session : remoteSubscriberSession) (err : iface)
  : list effect * final :=
  match err with
  | IError e =>
      match errorChan session with
      | Some _ => ([ErrorChanSend e], Reported e)
      | None => ([], BlockedOnNilChan e)
      end
  | _ => ([], LoggedUnknown)
  end.

Definition uint32 (n : nat) : Z := Z.of_nat n mod 2 ^ 32.

(** [pre] happened, then [k]. *)
Definition after (pre : list effect) (k : list effect * final)
  : list effect * final :=
  (pre ++ k.1, k.2).

(** Step 3 of [start]: the [for]/[select] loop over the pending queue.
    A write that times out is followed by [continue], any other write
    error by [panic(err)]. *)
Fixpoint loop (session : remoteSubscriberSession) (queue : list payload)
         (evs : list event) : list effect * final :=
  match evs with
  | [] => ([], Streaming queue)
  | msgChanRecv msg :: evs => loop session (enqueue queue msg) evs
  | quitChanRecv :: _ => ([], Returned)
  | timeAfter sizeWrite payloadWrite :: evs =>
      match queue with
      | [] => loop session queue evs
      | msg :: queue =>
          after [ConnSetDeadline; ConnWriteSize (uint32 (length msg))]
            match sizeWrite with
            | WriteTimeout => loop session queue evs
            | WriteError e => recovered session (IError e)
            | WriteOk =>
                after [ConnSetDeadline; ConnWritePayload msg]
                  match payloadWrite with
                  | WriteTimeout => loop session queue evs
                  | WriteError e => recovered session (IError e)
                  | WriteOk => loop session queue evs
                  end
            end
      end
  end.

(** Lines 169-173: later entries overwrite earlier ones with the same key. *)
Definition headerMap (headers : list header) : gmap string string :=
  fold_left (fun m h => <[key h := value h]> m) headers ∅.

(** Reading a Go map at a missing key gives the zero value. *)
Definition at_key (m : gmap string string) (k : string) : string :=
  default "" (m !! k).

(** The response header of step 2. *)
Definition resHeaders (session : remoteSubscriberSession) : list header :=
  [ {| key := "md5sum"; value := md5sum session |};
    {| key := "type"; value := typeName session |} ].

(** [start]: [read] is what readConnectionHeader returns, [written] what
    writeConnectionHeader returns, [evs] what the loop then receives. *)
Definition start (session : remoteSubscriberSession)
           (read : list header + error) (written : option error)
           (evs : list event) : list effect * final :=
  match read with
  | inr _ =>
      recovered session (IError (errorString "Failed to read connection header."))
  | inl headers =>
      let m := headerMap headers in
      if negb (String.eqb (at_key m "type") (typeName session))
         || negb (String.eqb (at_key m "md5sum") (md5sum session))
      then recovered session (IError (errorString "Incomatible message type!"))
      else
        after [ConnWriteHeader (resHeaders session)]
          match written with
          | Some _ =>
              recovered session
                (IError (errorString "Failed to write response header."))
          | None => loop session [] evs
          end
  end.

(** The writes on the connection among the effects. *)
Definition is_conn_write (e : effect) : bool :=
  match e with
  | ConnWriteHeader _ | ConnWriteSize _ | ConnWritePayload _ => true
  | _ => false
  end.

Definition is_data_frame (e : effect) : bool :=
  match e with
  | ConnWriteSize _ | ConnWritePayload _ => true
  | _ => false
  end.

Definition is_response_header (e : effect) : bool :=
  match e with
  | ConnWriteHeader _ => true
  | _ => false
  end.

(** The peer's header carries the publisher's type and hash. *)
Definition compatible (session : remoteSubscriberSession)
           (headers : list header) : Prop :=
  at_key (headerMap headers) "type" = typeName session
  /\ at_key (headerMap headers) "md5sum" = md5sum session.

(** The session ended in its deferred function, with this error. *)
Definition failed_with (fin : final) (e : error) : Prop :=
  fin = Reported e \/ fin = BlockedOnNilChan e.

(** What a successful flush of [msg] does: the size, then the bytes,
    each under a fresh deadline. *)
Definition frame (msg : payload) : list effect :=
  [ConnSetDeadline; ConnWriteSize (uint32 (length msg));
   ConnSetDeadline; ConnWritePayload msg].

(** A turn of the timer on which both writes succeed. *)
Definition flushed : event := timeAfter WriteOk WriteOk.

(** The last header with key [k], as the loop over the headers leaves
    it in the map. *)
Definition lastValue (k : string) (headers : list header) : string :=
  fold_left (fun acc h => if String.eqb (key h) k then value h else acc)
            headers "".

End Session.

(** ** The publisher of one topic *)

Module Publisher.

Record defaultPublisher := {
  nodeId : string;
  nodeApiUri : string;
  masterUri : string;
  topic : string;
  msgType : MessageType;
  msgChan : chan;
  shutdownChan : chan;
  sessions : list iface;        (* the Values of the list.List, front first *)
  listenerErrorChan : chan;
  sessionErrorChan : chan;
  listener : Listener
}.

(** [newDefaultPublisher]; [listened] is what
    [listenRandomPort("127.0.0.1", 10)] returns, and [inr] a panic.
    No [make] is run for [sessionErrorChan]: the field keeps the zero
    value [new] gave it. *)
Definition newDefaultPublisher (listened : Listener + error)
           (nodeId nodeApiUri masterUri topic : string) (msgType : MessageType)
  : defaultPublisher + error :=
  match listened with
  | inr err => inr err
  | inl l =>
      inl {| nodeId := nodeId;
             nodeApiUri := nodeApiUri;
             masterUri := masterUri;
             topic := topic;
             msgType := msgType;
             msgChan := Some 10;
             shutdownChan := Some 0;
             sessions := [];
             listenerErrorChan := Some 0;
             sessionErrorChan := None;
             listener := l |}
  end.

Definition newRemoteSubscriberSession (pub : defaultPublisher) (conn : nat)
  : Session.remoteSubscriberSession :=
  {| Session.conn := conn;
     Session.nodeId := nodeId pub;
     Session.topic := topic pub;
     Session.md5sum := MD5Sum (msgType pub);
     Session.typeName := Name (msgType pub);
     Session.quitChan := Some 0;
     Session.msgChan := Some 10;
     Session.errorChan := sessionErrorChan pub |}.

Definition set_sessions (pub : defaultPublisher) (l : list iface)
  : defaultPublisher :=
  {| nodeId := nodeId pub;
     nodeApiUri := nodeApiUri pub;
     masterUri := masterUri pub;
     topic := topic pub;
     msgType := msgType pub;
     msgChan := msgChan pub;
     shutdownChan := shutdownChan pub;
     sessions := l;
     listenerErrorChan := listenerErrorChan pub;
     sessionErrorChan := sessionErrorChan pub;
     listener := listener pub |}.

(** The publisher and the sessions allocated so far; a session's
    address is its index in [store]. *)
Record state := {
  pub : defaultPublisher;
  store : list Session.remoteSubscriberSession
}.

(** One successful [Accept] in [listenRemoteSubscriber]: a new session,
    pushed at the back of [pub.sessions]; its address is returned. *)
Definition accepted (st : state) (conn : nat) : state * ptr :=
  let session := length (store st) in
  ({| pub := set_sessions (pub st) (sessions (pub st) ++ [ISession session]);
      store := store st ++ [newRemoteSubscriberSession (pub st) conn] |},
   session).

Inductive effect :=
| WaitGroupAdd
| WaitGroupDone
| GoListenRemoteSubscriber
| SessionMsgSend (session : ptr) (msg : payload)  (* session.msgChan <- msg *)
| SessionQuitSend (session : ptr)                 (* session.quitChan <- struct{}{} *)
| ListenerClose
| CallRosApi (masterUri method : string) (args : list string).

(** What one turn of the [select] of [start] receives. The receive on
    [sessionErrorChan] binds two names: the value received, of the
    channel's element type [error], and the received-flag. *)
Inductive event :=
| msgChanRecv (msg : payload)
| listenerErrorRecv (err : error)
| sessionErrorRecv (session : error) (err : bool)
| shutdownChanRecv (unregistered : option error).

(** A receive fires only on a channel that was made. *)
Definition ready (pub : defaultPublisher) (ev : event) : bool :=
  match ev with
  | msgChanRecv _ => bool_decide (is_Some (msgChan pub))
  | listenerErrorRecv _ => bool_decide (is_Some (listenerErrorChan pub))
  | sessionErrorRecv _ _ => bool_decide (is_Some (sessionErrorChan pub))
  | shutdownChanRecv _ => bool_decide (is_Some (shutdownChan pub))
  end.

(** How a [select] case leaves the loop. *)
Inductive next :=
| Continue (pub : defaultPublisher)
| Return (pub : defaultPublisher)
| Panic (pub : defaultPublisher).

(** The type assertion of [e.Value] to a session pointer, along the
    list; [None] when an assertion fails. *)
Fixpoint asSessions (l : list iface) : option (list ptr) :=
  match l with
  | [] => Some []
  | ISession p :: l => cons p <$> asSessions l
  | _ :: _ => None
  end.

(** Lines 70-75: remove the first element equal to [session], and
    stop there; [None] when a comparison panics. *)
Fixpoint removeSession (session : iface) (l : list iface)
  : option (list iface) :=
  match l with
  | [] => Some []
  | v :: l =>
      match iface_eq v session with
      | None => None
      | Some true => Some l
      | Some false => cons v <$> removeSession session l
      end
  end.

(** The body of the [select] case that received [ev]. *)
Definition handle (pub : defaultPublisher) (ev : event)
  : list effect * next :=
  match ev with
  | msgChanRecv msg =>
      match asSessions (sessions pub) with
      | Some ss => (map (fun s => SessionMsgSend s msg) ss, Continue pub)
      | None => ([], Panic pub)
      end
  | listenerErrorRecv _ => ([ListenerClose], Return pub)
  | sessionErrorRecv session _ =>
      match removeSession (IError session) (sessions pub) with
      | Some l => ([], Continue (set_sessions pub l))
      | None => ([], Panic pub)
      end
  | shutdownChanRecv _ =>
      let call := CallRosApi (masterUri pub) "unregisterPublisher"
                    [nodeId pub; topic pub; nodeApiUri pub] in
      match asSessions (sessions pub) with
      | Some ss =>
          (ListenerClose :: call :: map SessionQuitSend ss,
           Return (set_sessions pub []))
      | None => ([ListenerClose; call], Panic pub)
      end
  end.

(** How the control goroutine stands when the events are used up. *)
Inductive final :=
| Running (pub : defaultPublisher)
| Exited (pub : defaultPublisher)
| Crashed (pub : defaultPublisher).

(** The [for]/[select] of [start]; [None] when the events cannot
    happen, one of them being a receive on a nil channel. *)
Fixpoint loop (pub : defaultPublisher) (evs : list event)
  : option (list effect * final) :=
  match evs with
  | [] => Some ([], Running pub)
  | ev :: evs =>
      if ready pub ev then
        match handle pub ev with
        | (effs, Continue pub) =>
            '(effs', fin) ← loop pub evs; Some (effs ++ effs', fin)
        | (effs, Return pub) => Some (effs ++ [WaitGroupDone], Exited pub)
        | (effs, Panic pub) => Some (effs ++ [WaitGroupDone], Crashed pub)
        end
      else None
  end.

Definition start (pub : defaultPublisher) (evs : list event)
  : option (list effect * final) :=
  '(effs, fin) ← loop pub evs;
  Some (WaitGroupAdd :: GoListenRemoteSubscriber :: effs, fin).

Definition hostAndPort (pub : defaultPublisher) : string * string :=
  SplitHostPort_Addr (listener pub).

(** What [listenRemoteSubscriber] does besides changing the list. *)
Inductive listen_effect :=
| GoSessionStart (session : ptr)          (* go session.start() *)
| ListenerErrorChanSend (err : error).    (* pub.listenerErrorChan <- err *)

(** [listenRemoteSubscriber], over what the successive calls of
    [Accept] return: a connection, or the error that ends the loop. *)
Fixpoint listenRemoteSubscriber (st : state) (accepts : list (nat + error))
  : state * list listen_effect :=
  match accepts with
  | [] => (st, [])
  | inr err :: _ => (st, [ListenerErrorChanSend err])
  | inl conn :: accepts =>
      let '(st', session) := accepted st conn in
      let '(st'', effs) := listenRemoteSubscriber st' accepts in
      (st'', GoSessionStart session :: effs)
  end.

(** The fan-out of one message to the sessions [ss]. *)
Definition fanOut (ss : list ptr) (msg : payload) : list effect :=
  map (fun s => SessionMsgSend s msg) ss.

End Publisher.

(** ** The node *)

Module Node.

Definition APIStatusError : Z := -1.
Definition APIStatusFailure : Z := 0.
Definition APIStatusSuccess : Z := 1.

(** [strings.Split(s, Remap)]. *)
Fixpoint Split_Remap (s : string) : list string :=
  match s with
  | EmptyString => [""]
  | String ":"%char (String "="%char rest) => "" :: Split_Remap rest
  | String c rest =>
      match Split_Remap rest with
      | x :: xs => String c x :: xs
      | [] => [String c ""]
      end
  end.

Definition HasPrefix (s prefix : string) : bool := String.prefix prefix s.

(** [key[1:]]. *)
Definition from1 (s : string) : string :=
  match s with
  | EmptyString => ""
  | String _ rest => rest
  end.

(** The four results of [processArguments], while they are built. *)
Record arguments := {
  mapping : gmap string string;
  params : gmap string string;
  specials : gmap string string;
  rest : list string
}.

Definition processArgument (acc : arguments) (arg : string) : arguments :=
  match Split_Remap arg with
  | [key; value] =>
      if HasPrefix key "__" then
        {| mapping := mapping acc; params := params acc;
           specials := <[key := value]> (specials acc); rest := rest acc |}
      else if HasPrefix key "_" then
        {| mapping := mapping acc;
           params := <[from1 key := value]> (params acc);
           specials := specials acc; rest := rest acc |}
      else
        {| mapping := <[key := value]> (mapping acc); params := params acc;
           specials := specials acc; rest := rest acc |}
  | _ =>
      {| mapping := mapping acc; params := params acc;
         specials := specials acc; rest := rest acc ++ [arg] |}
  end.

Definition processArguments (args : list string) : arguments :=
  fold_left processArgument args
    {| mapping := ∅; params := ∅; specials := ∅; rest := [] |}.

(** A user callback or job: a function value, known by a number. *)
Definition callback := nat.
Definition job := nat.

Inductive ServiceClientOption :=
| ServiceClientTCPTimeout (t : Z).

Inductive ServiceServerOption :=
| ServiceServerTCPTimeout (t : Z).

(** The two [NodeOption]s of the package. *)
Inductive NodeOption :=
| NodeServiceClientOptions (opts : list ServiceClientOption)
| NodeServiceServerOptions (opts : list ServiceServerOption).

(** The name resolver, by the three arguments [newNameResolver] gets. *)
Record NameResolver := {
  resolverNamespace : string;
  resolverName : string;
  resolverMapping : gmap string string
}.

Record ServiceType := {
  srvName : string;
  srvMD5Sum : string
}.

(** Modelled from the spec: [defaultSubscriber] is not in the source.
    A subscriber is identified by its resolved topic name and message
    type and owns the ordered sequence of its callbacks; [pubListChan]
    is kept as the values sent on it so far, oldest first. *)
Record defaultSubscriber := {
  subTopic : string;
  subMsgType : MessageType;
  callbacks : list callback;
  pubListChan : list (list string)
}.

Definition newDefaultSubscriber (topic : string) (msgType : MessageType)
           (cb : callback) : defaultSubscriber :=
  {| subTopic := topic; subMsgType := msgType; callbacks := [cb];
     pubListChan := [] |}.

(** The service server and client, by the arguments they are made from. *)
Record defaultServiceServer := {
  serverService : string;
  serverSrvType : ServiceType;
  serverHandler : callback;
  serverOpts : list ServiceServerOption
}.

Record defaultServiceClient := {
  clientNodeID : string;
  clientMasterURI : string;
  clientService : string;
  clientSrvType : ServiceType;
  clientOpts : list ServiceClientOption
}.

Record defaultNode := {
  name : string;
  namespace : string;
  qualifiedName : string;
  masterURI : string;
  xmlrpcURI : string;
  xmlrpcListener : Listener;
  xmlrpcHandler : list string;          (* the methods it serves *)
  subscribers : gmap string ptr;
  publishers : gmap string ptr;
  servers : gmap string ptr;
  jobChan : list job;                   (* pending, oldest first *)
  interruptChan : chan;
  ok : bool;
  logDir : string;
  hostname : string;
  listenIP : string;
  homeDir : string;
  nameResolver : NameResolver;
  nonRosArgs : list string;
  srvClientOpts : list ServiceClientOption;
  srvServerOpts : list ServiceServerOption
}.

(** Goroutines the node starts. *)
Inductive task :=
| signalHandler
| httpServe
| publisherStart (pub : ptr)
| subscriberStart (sub : ptr).

(** What the node does to the outside, and its writes of [node.ok]. *)
Inductive effect :=
| CallRosAPI (masterURI method : string) (args : list iface)
| Go (t : task)
| StoreOk (b : bool)
| SignalNotify
| SubscriberShutdown (sub : ptr)
| PublisherShutdown (pub : ptr)
| ServerShutdown (server : ptr)
| WaitGroupWait
| XmlrpcListenerClose
| XmlrpcHandlerWaitForShutdown
| RunJob (j : job).

(** The process: the node, the objects its maps point to (an address
    is an index), and the effects so far, oldest first. *)
Record world := {
  node : defaultNode;
  pubs : list Publisher.defaultPublisher;
  subs : list defaultSubscriber;
  srvs : list defaultServiceServer;
  done : list effect
}.

(** What the code calls outside this package's source: the name
    resolver, the master, the operating system, and the order in
    which [range] visits a map. *)
Record Env := {
  remap : NameResolver -> string -> string;
  callRosAPI : string -> string -> list iface -> iface + error;
  listenRandomPort : ptr -> Listener + error;
  serviceServerBinds : string -> bool;
  range : forall A : Type, gmap string A -> list (string * A);
  qualifyNodeName : string -> (string * string) + error;
  determineHost : string * bool;
  Getenv : string -> string;
  Getpid : Z;
  Join : string -> string -> string;
  netListen : Listener + error
}.

(** How a call ends: it returns, it panics, or a fatal log entry ends
    the process. *)
Inductive outcome (A : Type) :=
| Done (a : A) (w : world)
| Panicked (v : iface) (w : world)
| Fatal (w : world).
Arguments Done {A} a w.
Arguments Panicked {A} v w.
Arguments Fatal {A} w.

Definition M (A : Type) : Type := world -> outcome A.

#[export] Instance M_ret : MRet M := fun A a w => Done a w.
#[export] Instance M_bind : MBind M := fun A B f m w =>
  match m w with
  | Done a w => f a w
  | Panicked v w => Panicked v w
  | Fatal w => Fatal w
  end.

Definition world_of {A} (o : outcome A) : world :=
  match o with
  | Done _ w | Panicked _ w | Fatal w => w
  end.

Definition get : M defaultNode := fun w => Done (node w) w.

Definition panic {A} (v : iface) : M A := fun w => Panicked v w.

(** [logger.Fatal], [logger.Fatalf].
    Modelled from the spec: the logger is not in the source; a failed
    registration is fatal, the creation does not go on. *)
Definition Fatalf {A} : M A := fun w => Fatal w.

Definition emit (e : effect) : M unit := fun w =>
  Done tt {| node := node w; pubs := pubs w; subs := subs w; srvs := srvs w;
             done := done w ++ [e] |}.

Definition modify (f : defaultNode -> defaultNode) : M unit := fun w =>
  Done tt {| node := f (node w); pubs := pubs w; subs := subs w;
             srvs := srvs w; done := done w |}.

(** [for ... range]: the body on each element in turn. *)
Fixpoint forM {A} (l : list A) (body : A -> M unit) : M unit :=
  match l with
  | [] => mret tt
  | x :: l => body x ;; forM l body
  end.

(** [for ... range] that collects one value per element. *)
Fixpoint collectM {A B} (l : list A) (body : A -> M B) : M (list B) :=
  match l with
  | [] => mret []
  | x :: l => y ← body x; ys ← collectM l body; mret (y :: ys)
  end.

Definition nilDereference : iface :=
  IError (errorString "invalid memory address or nil pointer dereference").

Definition typeAssertion : iface :=
  IError (errorString "interface conversion").

Definition indexOutOfRange : iface :=
  IError (errorString "index out of range").

(** Modelled from the spec: [buildRosAPIResult] is not in the source;
    every response is the 3-tuple (statusCode, message, value). *)
Definition buildRosAPIResult (code : Z) (message : string) (value : iface)
  : iface :=
  ISlice [IInt code; IString message; value].

(** What a handler of the slave API returns: [(interface{}, error)]. *)
Definition result : Type := iface * option error.

(** *** Field updates *)

Definition set_ok (b : bool) (n : defaultNode) : defaultNode :=
  Build_defaultNode (name n) (namespace n) (qualifiedName n) (masterURI n)
    (xmlrpcURI n) (xmlrpcListener n) (xmlrpcHandler n) (subscribers n)
    (publishers n) (servers n) (jobChan n) (interruptChan n) b (logDir n)
    (hostname n) (listenIP n) (homeDir n) (nameResolver n) (nonRosArgs n)
    (srvClientOpts n) (srvServerOpts n).

Definition set_subscribers (m : gmap string ptr) (n : defaultNode)
  : defaultNode :=
  Build_defaultNode (name n) (namespace n) (qualifiedName n) (masterURI n)
    (xmlrpcURI n) (xmlrpcListener n) (xmlrpcHandler n) m
    (publishers n) (servers n) (jobChan n) (interruptChan n) (ok n) (logDir n)
    (hostname n) (listenIP n) (homeDir n) (nameResolver n) (nonRosArgs n)
    (srvClientOpts n) (srvServerOpts n).

Definition set_publishers (m : gmap string ptr) (n : defaultNode)
  : defaultNode :=
  Build_defaultNode (name n) (namespace n) (qualifiedName n) (masterURI n)
    (xmlrpcURI n) (xmlrpcListener n) (xmlrpcHandler n) (subscribers n)
    m (servers n) (jobChan n) (interruptChan n) (ok n) (logDir n)
    (hostname n) (listenIP n) (homeDir n) (nameResolver n) (nonRosArgs n)
    (srvClientOpts n) (srvServerOpts n).

Definition set_servers (m : gmap string ptr) (n : defaultNode)
  : defaultNode :=
  Build_defaultNode (name n) (namespace n) (qualifiedName n) (masterURI n)
    (xmlrpcURI n) (xmlrpcListener n) (xmlrpcHandler n) (subscribers n)
    (publishers n) m (jobChan n) (interruptChan n) (ok n) (logDir n)
    (hostname n) (listenIP n) (homeDir n) (nameResolver n) (nonRosArgs n)
    (srvClientOpts n) (srvServerOpts n).

Definition set_jobChan (l : list job) (n : defaultNode) : defaultNode :=
  Build_defaultNode (name n) (namespace n) (qualifiedName n) (masterURI n)
    (xmlrpcURI n) (xmlrpcListener n) (xmlrpcHandler n) (subscribers n)
    (publishers n) (servers n) l (interruptChan n) (ok n) (logDir n)
    (hostname n) (listenIP n) (homeDir n) (nameResolver n) (nonRosArgs n)
    (srvClientOpts n) (srvServerOpts n).

Definition set_xmlrpc (uri : string) (l : Listener) (h : list string)
           (n : defaultNode) : defaultNode :=
  Build_defaultNode (name n) (namespace n) (qualifiedName n) (masterURI n)
    uri l h (subscribers n)
    (publishers n) (servers n) (jobChan n) (interruptChan n) (ok n) (logDir n)
    (hostname n) (listenIP n) (homeDir n) (nameResolver n) (nonRosArgs n)
    (srvClientOpts n) (srvServerOpts n).

(** [node.ok = b], under [okMutex]. *)
Definition storeOk (b : bool) : M unit :=
  modify (set_ok b) ;; emit (StoreOk b).

(** *** The objects behind the pointers *)

Definition derefPublisher (p : ptr) : M Publisher.defaultPublisher := fun w =>
  match pubs w !! p with
  | Some x => Done x w
  | None => Panicked nilDereference w
  end.

Definition derefSubscriber (p : ptr) : M defaultSubscriber := fun w =>
  match subs w !! p with
  | Some x => Done x w
  | None => Panicked nilDereference w
  end.

Definition storeSubscriber (p : ptr) (s : defaultSubscriber) : M unit := fun w =>
  Done tt {| node := node w; pubs := pubs w; subs := <[p := s]> (subs w);
             srvs := srvs w; done := done w |}.

Definition allocPublisher (x : Publisher.defaultPublisher) : M ptr := fun w =>
  Done (length (pubs w))
       {| node := node w; pubs := pubs w ++ [x]; subs := subs w;
          srvs := srvs w; done := done w |}.

Definition allocSubscriber (x : defaultSubscriber) : M ptr := fun w =>
  Done (length (subs w))
       {| node := node w; pubs := pubs w; subs := subs w ++ [x];
          srvs := srvs w; done := done w |}.

Definition allocServer (x : defaultServiceServer) : M ptr := fun w =>
  Done (length (srvs w))
       {| node := node w; pubs := pubs w; subs := subs w;
          srvs := srvs w ++ [x]; done := done w |}.

(** [sub.pubListChan <- pubURIs]. *)
Definition pubListChanSend (sub : ptr) (pubURIs : list string) : M unit :=
  s ← derefSubscriber sub;
  storeSubscriber sub
    {| subTopic := subTopic s; subMsgType := subMsgType s;
       callbacks := callbacks s;
       pubListChan := pubListChan s ++ [pubURIs] |}.

(** [sub.callbacks = append(sub.callbacks, callback)]. *)
Definition appendCallback (sub : ptr) (cb : callback) : M unit :=
  s ← derefSubscriber sub;
  storeSubscriber sub
    {| subTopic := subTopic s; subMsgType := subMsgType s;
       callbacks := callbacks s ++ [cb];
       pubListChan := pubListChan s |}.

(** The type assertion to [string] on each element, in order; [None]
    when one of them is not a string. *)
Fixpoint asStrings (l : list iface) : option (list string) :=
  match l with
  | [] => Some []
  | IString s :: l => cons s <$> asStrings l
  | _ :: _ => None
  end.

(** *** Vocabulary of the properties *)

(** The calls of [method] on the master among the effects. *)
Definition callsOf (method : string) (l : list effect) : list effect :=
  List.filter (fun e => match e with
                   | CallRosAPI _ m _ => String.eqb m method
                   | _ => false
                   end) l.

(** An entry of a protocol list as peers send it: a list that starts
    with the name of the protocol. *)
Definition protocolEntry (v : iface) : bool :=
  match v with
  | ISlice (IString _ :: _) => true
  | _ => false
  end.

Definition offers (protocolName : string) (protocols : list iface) : bool :=
  existsb (fun v => match v with
                    | ISlice (IString n :: _) => String.eqb n protocolName
                    | _ => false
                    end) protocols.

(** The liveness flag is off. *)
Definition down (w : world) : Prop := ok (node w) = false.

(** A computation that never turns the flag back on. *)
Definition keeps_down {A} (m : M A) : Prop :=
  forall w : world, down w -> down (world_of (m w)).

(** Every pointer in the maps of the node is the address of an object
    of the process. *)
Definition allocated (w : world) : Prop :=
  (forall k p, subscribers (node w) !! k = Some p -> p < length (subs w))
  /\ (forall k p, publishers (node w) !! k = Some p -> p < length (pubs w))
  /\ (forall k p, servers (node w) !! k = Some p -> p < length (srvs w)).

(** A computation that leaves no pointer dangling. *)
Definition keeps_allocated {A} (m : M A) : Prop :=
  forall w : world, allocated w -> allocated (world_of (m w)).

(** The process [w] after it has also done [l]. *)
Definition did (w : world) (l : list effect) : world :=
  {| node := node w; pubs := pubs w; subs := subs w; srvs := srvs w;
     done := done w ++ l |}.

(** The call that sets the parameter [kv] for the node [n]. *)
Definition setParamCall (n : defaultNode) (kv : string * string) : effect :=
  CallRosAPI (masterURI n) "setParam"
             [IString (qualifiedName n); IString kv.1; IString kv.2].

Section WithEnv.

Context (env : Env).

(** [callRosAPI(node.masterURI, method, args...)]. *)
Definition call (method : string) (args : list iface) : M (iface + error) :=
  n ← get;
  emit (CallRosAPI (masterURI n) method args) ;;
  mret (callRosAPI env (masterURI n) method args).

Definition resolve (s : string) : M string :=
  n ← get; mret (remap env (nameResolver n) s).

(** The master accepts the parameter [kv] of the node [n]. *)
Definition paramAccepted (n : defaultNode) (kv : string * string) : Prop :=
  exists v : iface,
    callRosAPI env (masterURI n) "setParam"
               [IString (qualifiedName n); IString kv.1; IString kv.2]
    = inl v.

(** *** The slave API *)

Definition OK : M bool := n ← get; mret (ok n).

Definition getBusStats (callerID : string) : M result :=
  mret (buildRosAPIResult APIStatusError "Not implemented" (IInt 0), None).

Definition getBusInfo (callerID : string) : M result :=
  mret (buildRosAPIResult APIStatusError "Not implemeted" (IInt 0), None).

Definition getmasterURI (callerID : string) : M result :=
  n ← get;
  mret (buildRosAPIResult APIStatusSuccess "Success" (IString (masterURI n)),
        None).

Definition shutdown (callerID msg : string) : M result :=
  storeOk false ;;
  mret (buildRosAPIResult APIStatusSuccess "Success" (IInt 0), None).

Definition getPid (callerID : string) : M result :=
  mret (buildRosAPIResult APIStatusSuccess "Success" (IInt (Getpid env)),
        None).

Definition getSubscriptions (callerID : string) : M result :=
  n ← get;
  pairs ← collectM (range env ptr (subscribers n))
            (fun '(t, s) =>
               sub ← derefSubscriber s;
               mret (ISlice [IString t; IString (Name (subMsgType sub))]));
  mret (buildRosAPIResult APIStatusSuccess "Success" (ISlice pairs), None).

Definition getPublications (callerID : string) : M result :=
  n ← get;
  pairs ← collectM (range env ptr (publishers n))
            (fun '(topic, typ) =>
               mret (ISlice [IString topic; IPublisher typ]));
  mret (buildRosAPIResult APIStatusSuccess "Success" (ISlice pairs), None).

Definition paramUpdate (callerID key : string) (value : iface) : M result :=
  mret (buildRosAPIResult APIStatusError "Not implemented" (IInt 0), None).

Definition publisherUpdate (callerID topic : string)
           (publishers : list iface) : M result :=
  n ← get;
  match subscribers n !! topic with
  | None =>
      mret (buildRosAPIResult APIStatusFailure "No such topic" (IInt 0),
            None)
  | Some sub =>
      match asStrings publishers with
      | None => panic typeAssertion
      | Some pubURIs =>
          pubListChanSend sub pubURIs ;;
          mret (buildRosAPIResult APIStatusSuccess "Success" (IInt 0), None)
      end
  end.

(** How the loop of [requestTopic] over the protocols ends. *)
Inductive selection :=
| Selected (selectedProtocol : list iface)
| ParseFailed (err : error)
| SelectionPanic (v : iface).

Fixpoint selectProtocol (pub : Publisher.defaultPublisher)
         (protocols : list iface) : selection :=
  match protocols with
  | [] => Selected []
  | ISlice protocolParams :: protocols =>
      match protocolParams with
      | [] => SelectionPanic indexOutOfRange
      | IString protocolName :: _ =>
          if String.eqb protocolName "TCPROS" then
            let '(host, portStr) := Publisher.hostAndPort pub in
            match ParseInt portStr with
            | inr err => ParseFailed err
            | inl port =>
                Selected [IString "TCPROS"; IString host; IInt port]
            end
          else selectProtocol pub protocols
      | _ :: _ => SelectionPanic typeAssertion
      end
  | _ :: _ => SelectionPanic typeAssertion
  end.

Definition requestTopic (callerID topic : string) (protocols : list iface)
  : M result :=
  n ← get;
  match publishers n !! topic with
  | None =>
      mret (buildRosAPIResult APIStatusFailure "No such topic" INil, None)
  | Some p =>
      pub ← derefPublisher p;
      match selectProtocol pub protocols with
      | SelectionPanic v => panic v
      | ParseFailed err => mret (INil, Some err)
      | Selected selectedProtocol =>
          mret (buildRosAPIResult APIStatusSuccess "Success"
                  (ISlice selectedProtocol), None)
      end
  end.

(** *** Publishers, subscribers, services *)

(** [newDefaultPublisher] as node.go calls it, with the node; the
    publisher source has the constructor that takes the node's name
    and addresses, and no callbacks. *)
Definition newDefaultPublisher (name : string) (msgType : MessageType)
           (connectCallback disconnectCallback : option callback) : M ptr :=
  fun w =>
    let n := node w in
    match Publisher.newDefaultPublisher
            (listenRandomPort env (length (pubs w)))
            (qualifiedName n) (xmlrpcURI n) (masterURI n) name msgType with
    | inr err => Panicked (IError err) w
    | inl pub => allocPublisher pub w
    end.

Definition NewPublisherWithCallbacks (topic : string) (msgType : MessageType)
           (connectCallback disconnectCallback : option callback) : M ptr :=
  n ← get;
  let name := remap env (nameResolver n) topic in
  match publishers n !! topic with
  | Some pub => mret pub
  | None =>
      r ← call "registerPublisher"
            [IString (qualifiedName n); IString name;
             IString (Name msgType); IString (xmlrpcURI n)];
      match r with
      | inr _ => Fatalf
      | inl _ =>
          pub ← newDefaultPublisher name msgType
                  connectCallback disconnectCallback;
          modify (fun n => set_publishers (<[name := pub]> (publishers n)) n) ;;
          emit (Go (publisherStart pub)) ;;
          mret pub
      end
  end.

Definition NewPublisher (topic : string) (msgType : MessageType) : M ptr :=
  name ← resolve topic;
  NewPublisherWithCallbacks name msgType None None.

Definition NewSubscriber (topic : string) (msgType : MessageType)
           (cb : callback) : M ptr :=
  n ← get;
  let name := remap env (nameResolver n) topic in
  match subscribers n !! name with
  | Some sub => appendCallback sub cb ;; mret sub
  | None =>
      r ← call "registerSubscriber"
            [IString (qualifiedName n); IString name;
             IString (Name msgType); IString (xmlrpcURI n)];
      match r with
      | inr _ => Fatalf
      | inl (ISlice list) =>
          match asStrings list with
          | None => Fatalf
          | Some publishers =>
              sub ← allocSubscriber (newDefaultSubscriber name msgType cb);
              modify (fun n =>
                        set_subscribers (<[name := sub]> (subscribers n)) n) ;;
              emit (Go (subscriberStart sub)) ;;
              pubListChanSend sub publishers ;;
              mret sub
          end
      | inl _ => Fatalf
      end
  end.

(** The function handed to [sub.start]: the subscriber removes
    itself from the node. *)
Definition subscriberGone (name : string) : M unit :=
  modify (fun n => set_subscribers (delete name (subscribers n)) n).

Definition NewServiceClient (service : string) (srvType : ServiceType)
           (options : list ServiceClientOption) : M defaultServiceClient :=
  n ← get;
  mret {| clientNodeID := qualifiedName n;
          clientMasterURI := masterURI n;
          clientService := remap env (nameResolver n) service;
          clientSrvType := srvType;
          clientOpts := srvClientOpts n ++ options |}.

Definition NewServiceServer (service : string) (srvType : ServiceType)
           (handler : callback) (options : list ServiceServerOption)
  : M (option ptr) :=
  n ← get;
  let name := remap env (nameResolver n) service in
  match servers n !! name with
  | Some server => emit (ServerShutdown server)
  | None => mret tt
  end ;;
  if serviceServerBinds env name then
    server ← allocServer {| serverService := name;
                            serverSrvType := srvType;
                            serverHandler := handler;
                            serverOpts := srvServerOpts n ++ options |};
    modify (fun n => set_servers (<[name := server]> (servers n)) n) ;;
    mret (Some server)
  else mret None.

(** *** Jobs *)

(** A background task sends a job; the channel holds 100. *)
Definition jobChanSend (j : job) : M bool :=
  n ← get;
  match Nat.ltb (length (jobChan n)) 100 with
  | true => modify (set_jobChan (jobChan n ++ [j])) ;; mret true
  | false => mret false
  end.

(** The [select] of [SpinOnce] and [Spin]: a pending job, or the timer. *)
Definition SpinOnce : M unit :=
  n ← get;
  match jobChan n with
  | j :: pending => modify (set_jobChan pending) ;; emit (RunJob j)
  | [] => mret tt
  end.

(** [Spin], for at most [turns] turns of its loop: [true] when it
    returned. *)
Fixpoint Spin (turns : nat) : M bool :=
  match turns with
  | O => mret false
  | S turns =>
      b ← OK;
      match b with
      | true => SpinOnce ;; Spin turns
      | false => mret true
      end
  end.

(** *** Shutdown *)

Definition Shutdown : M unit :=
  storeOk false ;;
  n ← get;
  forM (range env ptr (subscribers n)) (fun '(_, s) => emit (SubscriberShutdown s)) ;;
  forM (range env ptr (publishers n)) (fun '(_, p) => emit (PublisherShutdown p)) ;;
  forM (range env ptr (servers n)) (fun '(_, s) => emit (ServerShutdown s)) ;;
  emit WaitGroupWait ;;
  emit XmlrpcListenerClose ;;
  emit XmlrpcHandlerWaitForShutdown.

(** The goroutine of the signal handler, once the signal came. *)
Definition interrupted : M unit := storeOk false.

(** *** Parameters *)

Definition GetParam (key : string) : M (iface + error) :=
  n ← get;
  call "getParam" [IString (qualifiedName n);
                   IString (remap env (nameResolver n) key)].

Definition SetParam (key : string) (value : iface) : M (option error) :=
  n ← get;
  r ← call "setParam" [IString (qualifiedName n);
                       IString (remap env (nameResolver n) key); value];
  mret (match r with inr e => Some e | inl _ => None end).

Definition HasParam (key : string) : M (bool * option error) :=
  n ← get;
  r ← call "hasParam" [IString (qualifiedName n);
                       IString (remap env (nameResolver n) key)];
  match r with
  | inr e => mret (false, Some e)
  | inl (IBool b) => mret (b, None)
  | inl _ => panic typeAssertion
  end.

Definition SearchParam (key : string) : M (string * option error) :=
  n ← get;
  r ← call "searchParam" [IString (qualifiedName n); IString key];
  match r with
  | inr e => mret ("", Some e)
  | inl (IString s) => mret (s, None)
  | inl _ => panic typeAssertion
  end.

Definition DeleteParam (key : string) : M (option error) :=
  n ← get;
  r ← call "deleteParam" [IString (qualifiedName n);
                          IString (remap env (nameResolver n) key)];
  mret (match r with inr e => Some e | inl _ => None end).

(** *** Construction *)

Definition zeroNode : defaultNode :=
  {| name := ""; namespace := ""; qualifiedName := ""; masterURI := "";
     xmlrpcURI := ""; xmlrpcListener := {| lhost := ""; lport := 0 |};
     xmlrpcHandler := []; subscribers := ∅; publishers := ∅; servers := ∅;
     jobChan := []; interruptChan := None; ok := false; logDir := "";
     hostname := ""; listenIP := ""; homeDir := ""; 
     nameResolver := {| resolverNamespace := ""; resolverName := "";
                        resolverMapping := ∅ |};
     nonRosArgs := []; srvClientOpts := []; srvServerOpts := [] |}.

(** The process before any node was made. *)
Definition freshWorld : world :=
  {| node := zeroNode; pubs := []; subs := []; srvs := []; done := [] |}.

(** The value of the first key of [overrides] that is set, else [base]. *)
Definition overridden (base : string) (overrides : list (option string))
  : string :=
  fold_left (fun acc o => default acc o) overrides base.

(** [os.Getenv(k)] when it is not empty. *)
Definition envSet (k : string) : option string :=
  match Getenv env k with
  | EmptyString => None
  | v => Some v
  end.

Definition slaveMethods : list string :=
  ["getBusStats"; "getBusInfo"; "getMasterUri"; "shutdown"; "getPid";
   "getSubscriptions"; "getPublications"; "paramUpdate";
   "publisherUpdate"; "requestTopic"].

(** The loop over [params]: the first error is returned. *)
Fixpoint setParams (l : list (string * string)) : M (option error) :=
  match l with
  | [] => mret None
  | (k, v) :: l =>
      n ← get;
      r ← call "setParam" [IString (qualifiedName n); IString k; IString v];
      match r with
      | inr err => mret (Some err)
      | inl _ => setParams l
      end
  end.

(** [newDefaultNode]: [Some err] is the return of [(nil, err)]. The
    fields are given here in one record, with the values the
    assignments of the source leave in them. *)
Definition construct (name : string) (args : list string)
           (opts : list NodeOption) : M (option error) :=
  match qualifyNodeName env name with
  | inr err => mret (Some err)
  | inl (namespace, nodeName) =>
      let a := processArguments args in
      let sp := specials a in
      let homeDir := overridden (Join env (Getenv env "HOME") ".ros")
                       [envSet "ROS_HOME"] in
      let name := overridden nodeName [sp !! "__name"] in
      let namespace := overridden namespace
                         [envSet "ROS_NAMESPACE"; sp !! "__ns"] in
      let logDir := overridden (Join env homeDir "log")
                      [envSet "ROS_LOG_DIR"; sp !! "__log"] in
      let '(hostname, onlyLocalhost) :=
        match sp !! "__hostname", sp !! "__ip" with
        | Some v, _ => (v, String.eqb v "localhost")
        | None, Some v => (v, String.eqb v "::1" || HasPrefix v "127.")
        | None, None => determineHost env
        end in
      let masterURI := overridden (Getenv env "ROS_MASTER_URI")
                         [sp !! "__master"] in
      let qualifiedName :=
        if Nat.eqb (String.length namespace) 1 then namespace +:+ name
        else namespace +:+ "/" +:+ name in
      modify (fun n =>
        {| name := name; namespace := namespace;
           qualifiedName := qualifiedName; masterURI := masterURI;
           xmlrpcURI := ""; xmlrpcListener := xmlrpcListener n;
           xmlrpcHandler := [];
           subscribers := ∅; publishers := ∅; servers := ∅;
           jobChan := []; interruptChan := Some 0; ok := true;
           logDir := logDir; hostname := hostname;
           listenIP := if onlyLocalhost then "127.0.0.1" else "0.0.0.0";
           homeDir := homeDir;
           nameResolver := {| resolverNamespace := namespace;
                              resolverName := name;
                              resolverMapping := mapping a |};
           nonRosArgs := rest a;
           srvClientOpts :=
             fold_left (fun acc o => match o with
                                     | NodeServiceClientOptions l => l
                                     | _ => acc
                                     end) opts [];
           srvServerOpts :=
             fold_left (fun acc o => match o with
                                     | NodeServiceServerOptions l => l
                                     | _ => acc
                                     end) opts [] |}) ;;
      emit SignalNotify ;;
      emit (Go signalHandler) ;;
      r ← setParams (range env string (params a));
      match r with
      | Some err => mret (Some err)
      | None =>
          match netListen env with
          | inr _ => Fatalf
          | inl listener =>
              modify (set_xmlrpc
                        ("http://" +:+ hostname +:+ ":" +:+
                         (SplitHostPort_Addr listener).2)
                        listener slaveMethods) ;;
              emit (Go httpServe) ;;
              mret None
          end
      end
  end.

Definition newDefaultNode (name : string) (args : list string)
           (opts : list NodeOption) : outcome (option error) :=
  construct name args opts freshWorld.

(** *** Everything that can happen to a node *)

Inductive op :=
| Interrupt
| CallOK
| RpcGetBusStats (callerID : string)
| RpcGetBusInfo (callerID : string)
| RpcGetMasterUri (callerID : string)
| RpcShutdown (callerID msg : string)
| RpcGetPid (callerID : string)
| RpcGetSubscriptions (callerID : string)
| RpcGetPublications (callerID : string)
| RpcParamUpdate (callerID key : string) (value : iface)
| RpcPublisherUpdate (callerID topic : string) (publishers : list iface)
| RpcRequestTopic (callerID topic : string) (protocols : list iface)
| CallNewPublisher (topic : string) (msgType : MessageType)
| CallNewPublisherWithCallbacks (topic : string) (msgType : MessageType)
    (connectCallback disconnectCallback : option callback)
| CallNewSubscriber (topic : string) (msgType : MessageType) (cb : callback)
| SubscriberGone (name : string)
| CallNewServiceClient (service : string) (srvType : ServiceType)
    (options : list ServiceClientOption)
| CallNewServiceServer (service : string) (srvType : ServiceType)
    (handler : callback) (options : list ServiceServerOption)
| JobChanSend (j : job)
| CallSpinOnce
| CallSpin (turns : nat)
| CallShutdown
| CallGetParam (key : string)
| CallSetParam (key : string) (value : iface)
| CallHasParam (key : string)
| CallSearchParam (key : string)
| CallDeleteParam (key : string).

Definition forget {A} (m : M A) : M unit := m ;; mret tt.

Definition exec (o : op) : M unit :=
  match o with
  | Interrupt => interrupted
  | CallOK => forget OK
  | RpcGetBusStats c => forget (getBusStats c)
  | RpcGetBusInfo c => forget (getBusInfo c)
  | RpcGetMasterUri c => forget (getmasterURI c)
  | RpcShutdown c m => forget (shutdown c m)
  | RpcGetPid c => forget (getPid c)
  | RpcGetSubscriptions c => forget (getSubscriptions c)
  | RpcGetPublications c => forget (getPublications c)
  | RpcParamUpdate c k v => forget (paramUpdate c k v)
  | RpcPublisherUpdate c t l => forget (publisherUpdate c t l)
  | RpcRequestTopic c t l => forget (requestTopic c t l)
  | CallNewPublisher t ty => forget (NewPublisher t ty)
  | CallNewPublisherWithCallbacks t ty cc dc =>
      forget (NewPublisherWithCallbacks t ty cc dc)
  | CallNewSubscriber t ty cb => forget (NewSubscriber t ty cb)
  | SubscriberGone name => subscriberGone name
  | CallNewServiceClient s ty l => forget (NewServiceClient s ty l)
  | CallNewServiceServer s ty h l => forget (NewServiceServer s ty h l)
  | JobChanSend j => forget (jobChanSend j)
  | CallSpinOnce => SpinOnce
  | CallSpin turns => forget (Spin turns)
  | CallShutdown => Shutdown
  | CallGetParam k => forget (GetParam k)
  | CallSetParam k v => forget (SetParam k v)
  | CallHasParam k => forget (HasParam k)
  | CallSearchParam k => forget (SearchParam k)
  | CallDeleteParam k => forget (DeleteParam k)
  end.

(** The process after the operations [l], whatever way each one ended
    (a panic in a handler is recovered by the server, the process
    goes on). *)
Definition after_ops (l : list op) (w : world) : world :=
  fold_left (fun w o => world_of (exec o w)) l w.

End WithEnv.

End Node.

(** ** A concrete process, for the examples *)

Module Example.

(** Names resolved in the namespace "/", with no remapping. *)
Definition resolveName (s : string) : string :=
  match s with
  | String "/"%char _ => s
  | _ => "/" +:+ s
  end.

(** The master accepts every call; nobody publishes yet. *)
Definition master (uri method : string) (args : list iface) : iface + error :=
  if String.eqb method "registerSubscriber" then inl (ISlice [])
  else inl (IInt 1).

Definition env : Node.Env :=
  {| Node.remap := fun _ s => resolveName s;
     Node.callRosAPI := master;
     Node.listenRandomPort :=
       fun p => inl {| lhost := "127.0.0.1"; lport := 40000 + N.of_nat p |};
     Node.serviceServerBinds := fun _ => true;
     Node.range := fun A m => map_to_list m;
     Node.qualifyNodeName := fun s => inl ("/", s);
     Node.determineHost := ("localhost", true);
     Node.Getenv := fun k =>
       if String.eqb k "ROS_MASTER_URI" then "http://localhost:11311"
       else if String.eqb k "HOME" then "/home/ros"
       else "";
     Node.Getpid := 4242;
     Node.Join := fun a b => a +:+ "/" +:+ b;
     Node.netListen := inl {| lhost := "0.0.0.0"; lport := 45000 |} |}.

Definition String_type : MessageType :=
  {| Text := "string data"; MD5Sum := "992ce8a1687cec8c8bd883ec73ca41d1";
     Name := "std_msgs/String" |}.

(** The process once the node "/talker" is made. *)
Definition started : Node.world :=
  Node.world_of (Node.newDefaultNode env "talker" [] []).

(** ... and once it advertises "/chatter". *)
Definition advertising : Node.world :=
  Node.world_of (Node.NewPublisher env "chatter" String_type started).

(** ... and once it also subscribes to "/chatter". *)
Definition subscribed : Node.world :=
  Node.world_of (Node.NewSubscriber env "chatter" String_type 0 advertising).

(** What the constructor of the publisher source returns. *)
Definition made : Publisher.defaultPublisher + error :=
  Publisher.newDefaultPublisher
    (inl {| lhost := "127.0.0.1"; lport := 40000 |})
    "/talker" "http://localhost:45000" "http://localhost:11311"
    "/chatter" String_type.

(** The publisher the constructor returns. *)
Definition publisher : Publisher.defaultPublisher :=
  {| Publisher.nodeId := "/talker";
     Publisher.nodeApiUri := "http://localhost:45000";
     Publisher.masterUri := "http://localhost:11311";
     Publisher.topic := "/chatter";
     Publisher.msgType := String_type;
     Publisher.msgChan := Some 10;
     Publisher.shutdownChan := Some 0;
     Publisher.sessions := [];
     Publisher.listenerErrorChan := Some 0;
     Publisher.sessionErrorChan := None;
     Publisher.listener := {| lhost := "127.0.0.1"; lport := 40000 |} |}.

(** A peer that asks for another message type. *)
Definition wrongHeaders : list header :=
  [ {| key := "type"; value := "std_msgs/Int32" |};
    {| key := "md5sum"; value := "da5909fbe378aeaf85e547e830cc1bb7" |} ].

Definition rightHeaders : list header :=
  [ {| key := "callerid"; value := "/listener" |};
    {| key := "type"; value := "std_msgs/String" |};
    {| key := "md5sum"; value := "992ce8a1687cec8c8bd883ec73ca41d1" |} ].

(** Two payloads. *)
Definition hello : payload := [Byte.x68; Byte.x69].
Definition again : payload := [Byte.x68; Byte.x6f].

(** The session of a peer of [publisher]. *)
Definition session : Session.remoteSubscriberSession :=
  Publisher.newRemoteSubscriberSession publisher 7.

(** The publisher once two peers are connected and [Accept] has failed. *)
Definition connected : Publisher.state :=
  (Publisher.listenRemoteSubscriber
     {| Publisher.pub := publisher; Publisher.store := [] |}
     [inl 7; inl 8;
      inr (netError false "use of closed network connection")]).1.

(** A master that refuses every parameter, on a host where no port is
    left. *)
Definition hostile : Node.Env :=
  {| Node.remap := fun _ s => resolveName s;
     Node.callRosAPI := fun uri method args =>
       if String.eqb method "setParam" then inr (errorString "refused")
       else master uri method args;
     Node.listenRandomPort := fun _ => inr (errorString "no port left");
     Node.serviceServerBinds := fun _ => false;
     Node.range := fun A m => map_to_list m;
     Node.qualifyNodeName := fun s => inl ("/", s);
     Node.determineHost := ("localhost", true);
     Node.Getenv := Node.Getenv env;
     Node.Getpid := 4242;
     Node.Join := fun a b => a +:+ "/" +:+ b;
     Node.netListen := inl {| lhost := "0.0.0.0"; lport := 45000 |} |}.

Definition AddTwoInts : Node.ServiceType :=
  {| Node.srvName := "rospy_tutorials/AddTwoInts";
     Node.srvMD5Sum := "6a2e34150c00229791cc89ff309fff21" |}.

(** The process once the node serves "/add". *)
Definition serving : Node.world :=
  Node.world_of (Node.NewServiceServer env "add" AddTwoInts 3 [] started).

(** The node made with a parameter, a plain argument and an option. *)
Definition configured : Node.world :=
  Node.world_of
    (Node.newDefaultNode env "talker" ["_rate:=10"; "verbose"]
       [Node.NodeServiceClientOptions [Node.ServiceClientTCPTimeout 50]]).

(** What is left of the attempt to make the node at the hostile master. *)
Definition refused : Node.world :=
  Node.world_of (Node.newDefaultNode hostile "talker" ["_rate:=10"] []).

(** The process once the interrupt signal came. *)
Definition stopped : Node.world :=
  Node.world_of (Node.interrupted started).

End Example.

(** * Properties *)

(** ** The session's pending queue *)

Section SessionQueue.

Import Session.

Lemma enqueue_length_le (queue : list payload) (msg : payload) :
  length queue <= queueMaxSize -> length (enqueue queue msg) <= queueMaxSize.
Proof.
  unfold enqueue. intros H.
  destruct (Nat.eqb_spec (length queue) queueMaxSize) as [E | E];
    rewrite length_app; simpl.
  - unfold queueMaxSize in *. destruct queue; simpl in *; lia.
  - lia.
Qed.

Lemma enqueue_drop (queue : list payload) (msg : payload) :
  length queue <= queueMaxSize ->
  enqueue queue msg
  = drop (length (queue ++ [msg]) - queueMaxSize) (queue ++ [msg]).
Proof.
  unfold enqueue. intros H. rewrite length_app. simpl.
  destruct (Nat.eqb_spec (length queue) queueMaxSize) as [E | E].
  - rewrite E. replace (queueMaxSize + 1 - queueMaxSize) with 1 by lia.
    destruct queue; [discriminate E | reflexivity].
  - replace (length queue + 1 - queueMaxSize) with 0 by lia. reflexivity.
Qed.

(** Enqueueing [msgs] one after the other keeps the last
    [queueMaxSize] of what was pending and what came. *)
Lemma enqueue_all_drop (msgs : list payload) : forall queue : list payload,
  length queue <= queueMaxSize ->
  fold_left enqueue msgs queue
  = drop (length (queue ++ msgs) - queueMaxSize) (queue ++ msgs).
Proof.
  induction msgs as [| msg msgs IH]; intros queue H; simpl.
  - rewrite app_nil_r. replace (length queue - queueMaxSize) with 0 by lia.
    reflexivity.
  - rewrite IH by (apply enqueue_length_le; exact H).
    rewrite (enqueue_drop queue msg H).
    rewrite length_app, length_drop.
    replace (queue ++ msg :: msgs) with ((queue ++ [msg]) ++ msgs)
      by (rewrite <- app_assoc; reflexivity).
    set (l := queue ++ [msg]).
    assert (Hl : length l <= S queueMaxSize)
      by (unfold l; rewrite length_app; simpl; lia).
    rewrite length_app.
    destruct (Nat.le_gt_cases (length l) queueMaxSize) as [Hle | Hgt].
    + replace (length l - queueMaxSize) with 0 by lia.
      rewrite !drop_0, Nat.sub_0_r. reflexivity.
    + assert (E : length l = S queueMaxSize) by lia.
      rewrite E.
      replace (S queueMaxSize - queueMaxSize) with 1 by lia.
      replace (S queueMaxSize - 1 + length msgs - queueMaxSize)
        with (length msgs) by lia.
      replace (S queueMaxSize + length msgs - queueMaxSize)
        with (1 + length msgs) by lia.
      rewrite <- drop_drop.
      f_equal. rewrite drop_app_le by lia. reflexivity.
Qed.

(** While only messages arrive, the loop performs nothing and the
    queue is the fold of [enqueue]. *)
Lemma loop_only_messages (session : remoteSubscriberSession)
      (msgs : list payload) : forall queue : list payload,
  loop session queue (map msgChanRecv msgs)
  = ([], Streaming (fold_left enqueue msgs queue)).
Proof.
  induction msgs as [| msg msgs IH]; intros queue; simpl; [reflexivity |].
  apply IH.
Qed.

(** C2. For every sequence of payloads received by a session with no
    flush in between, the pending queue is exactly the most recent
    [min n 100] of them in their order; at capacity each arrival
    discards the oldest entry, and the length never exceeds 100. *)
Theorem C2_bounded_queue (session : remoteSubscriberSession)
        (msgs : list payload) :
  exists queue : list payload,
    loop session [] (map msgChanRecv msgs) = ([], Streaming queue)
    /\ queue = drop (length msgs - 100) msgs
    /\ length queue = Nat.min (length msgs) 100
    /\ length queue <= 100
    /\ (forall (q : list payload) (msg : payload),
           length q = 100 -> enqueue q msg = tail q ++ [msg])
    /\ (forall (q : list payload) (msg : payload),
           length q < 100 -> enqueue q msg = q ++ [msg]).
Proof.
  exists (fold_left enqueue msgs []).
  assert (E : fold_left enqueue msgs [] = drop (length msgs - 100) msgs).
  { rewrite enqueue_all_drop by (simpl; unfold queueMaxSize; lia).
    reflexivity. }
  split; [apply loop_only_messages |].
  split; [exact E |].
  rewrite E, length_drop.
  split; [lia |]. split; [lia |].
  split; intros q msg Hq; unfold enqueue, queueMaxSize.
  - rewrite Hq. reflexivity.
  - destruct (Nat.eqb_spec (length q) 100); [lia | reflexivity].
Qed.

End SessionQueue.

(** ** The handshake of a session *)

Section SessionHandshake.

Import Session.

Lemma compatible_test (session : remoteSubscriberSession)
      (headers : list header) :
  negb (String.eqb (at_key (headerMap headers) "type") (typeName session))
  || negb (String.eqb (at_key (headerMap headers) "md5sum") (md5sum session))
  = false
  <-> Session.compatible session headers.
Proof.
  unfold Session.compatible.
  rewrite orb_false_iff, !negb_false_iff, !String.eqb_eq. reflexivity.
Qed.

Lemma recovered_writes_nothing (session : remoteSubscriberSession)
      (v : iface) :
  filter is_conn_write (recovered session v).1 = [].
Proof.
  destruct v; try reflexivity. simpl.
  destruct (errorChan session); reflexivity.
Qed.

Lemma recovered_error (session : remoteSubscriberSession) (e : error) :
  failed_with (recovered session (IError e)).2 e.
Proof.
  unfold failed_with. simpl.
  destruct (errorChan session); simpl; [left | right]; reflexivity.
Qed.





End SessionHandshake.

(** ** The publisher and the errors of its sessions *)

Section PublisherSessions.

Import Publisher.

Lemma set_sessions_same (pub : defaultPublisher) :
  set_sessions pub (sessions pub) = pub.
Proof. destruct pub. reflexivity. Qed.



(** Only accepted sessions are in the list. *)
Lemma asSessions_app (l : list iface) (p : ptr) : forall ss : list ptr,
  asSessions l = Some ss -> asSessions (l ++ [ISession p]) = Some (ss ++ [p]).
Proof.
  induction l as [| v l IH]; intros ss H; simpl in *.
  - inversion H. reflexivity.
  - destruct v; try discriminate H.
    destruct (asSessions l) as [ss' |]; [| discriminate H].
    inversion H. rewrite (IH ss' eq_refl). reflexivity.
Qed.

(** The channel on which sessions report is nil from the constructor
    on, and a receive on it never fires. *)
Lemma newDefaultPublisher_sessionErrorChan (listened : Listener + error)
      (nodeId nodeApiUri masterUri topic : string) (msgType : MessageType)
      (pub : defaultPublisher) :
  newDefaultPublisher listened nodeId nodeApiUri masterUri topic msgType
  = inl pub ->
  sessionErrorChan pub = None /\ sessions pub = [].
Proof.
  unfold newDefaultPublisher. destruct listened; intros H; inversion H.
  split; reflexivity.
Qed.

Lemma loop_sessionError_nil (pub : defaultPublisher) (e : error) (b : bool)
      (evs : list event) :
  sessionErrorChan pub = None ->
  loop pub (sessionErrorRecv e b :: evs) = None.
Proof. intros H. simpl. rewrite H. reflexivity. Qed.

(** C8 (the code at the failing input). A publisher made by its
    constructor accepts one peer, whose handshake then fails. The
    session's report blocks on the nil channel; the control loop can
    never receive it; and the body of the receiving case, were it
    run, would leave the failed session in the list. *)
Theorem C8_failed_session_stays :
  exists (pub : defaultPublisher) (st : state),
    Example.made = inl pub
    /\ st = (accepted {| pub := pub; store := [] |} 7).1
    /\ sessions (Publisher.pub st) = [ISession 0]
    /\ (exists session : Session.remoteSubscriberSession,
           store st !! 0 = Some session
           /\ Session.start session (inl Example.wrongHeaders) None []
              = ([], Session.BlockedOnNilChan
                       (errorString "Incomatible message type!")))
    /\ loop (Publisher.pub st)
            [sessionErrorRecv (errorString "Incomatible message type!") true]
       = None
    /\ handle (Publisher.pub st)
              (sessionErrorRecv (errorString "Incomatible message type!") true)
       = ([], Continue (Publisher.pub st)).
Proof.
  eexists. eexists.
  split; [reflexivity |]. split; [reflexivity |].
  split; [reflexivity |].
  split; [eexists; split; [reflexivity | vm_compute; reflexivity] |].
  split; reflexivity.
Qed.

End PublisherSessions.

(** Unfolding the monad of the node. *)
Ltac run :=
  cbv [mbind mret Node.M_bind Node.M_ret Node.get Node.emit Node.modify
       Node.panic Node.Fatalf Node.storeOk Node.derefSubscriber
       Node.derefPublisher Node.storeSubscriber Node.pubListChanSend
       Node.appendCallback Node.call Node.resolve Node.forget
       Node.allocPublisher Node.allocSubscriber Node.allocServer].

Ltac run_in H :=
  cbv [mbind mret Node.M_bind Node.M_ret Node.get Node.emit Node.modify
       Node.panic Node.Fatalf Node.storeOk Node.derefSubscriber
       Node.derefPublisher Node.storeSubscriber Node.pubListChanSend
       Node.appendCallback Node.call Node.resolve Node.forget
       Node.allocPublisher Node.allocSubscriber Node.allocServer] in H.

(** ** The slave API of the node *)

Section SlaveAPI.

Import Node.

Context (env : Env).

Lemma asStrings_strings (uris : list string) :
  asStrings (map IString uris) = Some uris.
Proof.
  induction uris as [| u uris IH]; simpl; [reflexivity |].
  rewrite IH. reflexivity.
Qed.

Lemma asStrings_not_string (l : list iface) :
  Exists (fun v => forall s : string, v <> IString s) l ->
  asStrings l = None.
Proof.
  induction 1 as [v l H | v l H IH]; simpl.
  - destruct v; try reflexivity. exfalso. exact (H s eq_refl).
  - destruct v; try reflexivity. rewrite IH. reflexivity.
Qed.

(** C5. [publisherUpdate] for a topic without subscriber returns
    status 0 with "No such topic" and leaves the process as it was,
    whatever the list; for a topic with a subscriber and a list of
    peer URIs it returns status 1 with "Success", and the list is the
    newest value sent on that subscriber's [pubListChan], nothing
    else having changed. *)
Theorem C5_publisherUpdate (callerID topic : string)
        (publishers : list iface) (uris : list string) (w : world) :
  (subscribers (node w) !! topic = None ->
   publisherUpdate callerID topic publishers w
   = Done (ISlice [IInt 0; IString "No such topic"; IInt 0], None) w)
  /\ (forall (sub : ptr) (s : defaultSubscriber),
         subscribers (node w) !! topic = Some sub ->
         subs w !! sub = Some s ->
         publisherUpdate callerID topic (map IString uris) w
         = Done (ISlice [IInt 1; IString "Success"; IInt 0], None)
                {| node := node w; pubs := pubs w;
                   subs := <[sub := {| subTopic := subTopic s;
                                       subMsgType := subMsgType s;
                                       callbacks := callbacks s;
                                       pubListChan := pubListChan s ++ [uris] |}]>
                             (subs w);
                   srvs := srvs w; done := done w |}).
Proof.
  split.
  - intros H. unfold publisherUpdate. run. rewrite H. reflexivity.
  - intros sub s H Hs. unfold publisherUpdate. run. rewrite H.
    rewrite asStrings_strings. run. rewrite Hs. reflexivity.
Qed.

(** C10. With a subscriber on the topic and an element of the list
    that is not a string, [publisherUpdate] does not return: the type
    assertion panics, before anything is sent to the subscriber. *)
Theorem C10_publisherUpdate_panics (callerID topic : string)
        (publishers : list iface) (sub : ptr) (w : world) :
  subscribers (node w) !! topic = Some sub ->
  Exists (fun v => forall s : string, v <> IString s) publishers ->
  publisherUpdate callerID topic publishers w = Panicked typeAssertion w.
Proof.
  intros H N. unfold publisherUpdate. run. rewrite H.
  rewrite (asStrings_not_string _ N). reflexivity.
Qed.

(** The port a listener reports is read back as the same number. *)
Lemma ParseInt_itoa (n : N) :
  (n < 2 ^ 31)%N -> ParseInt (itoa n) = inl (Z.of_N n).
Proof.
  intros H. unfold itoa.
  assert (Hd : N.to_uint n <> Decimal.Nil).
  { destruct n; [discriminate | apply DecimalPos.Unsigned.to_uint_nonnil]. }
  pose proof (NilZero.usu _ Hd) as U.
  pose proof (DecimalN.Unsigned.of_to n) as O.
  assert (B : (Z.of_N n <? 2 ^ 31)%Z = true).
  { apply Z.ltb_lt. change (2 ^ 31)%Z with (Z.of_N (2 ^ 31)). lia. }
  unfold ParseInt.
  destruct (N.to_uint n) eqn:E; [congruence | ..];
    cbn [NilZero.string_of_uint NilEmpty.string_of_uint] in *;
    rewrite U, O, B; reflexivity.
Qed.

Lemma selectProtocol_entries (pub : Publisher.defaultPublisher)
      (protocols : list iface) :
  (lport (Publisher.listener pub) < 2 ^ 31)%N ->
  forallb protocolEntry protocols = true ->
  selectProtocol pub protocols
  = Selected (if offers "TCPROS" protocols
              then [IString "TCPROS";
                    IString (lhost (Publisher.listener pub));
                    IInt (Z.of_N (lport (Publisher.listener pub)))]
              else []).
Proof.
  intros Hp. induction protocols as [| v protocols IH]; intros H;
    [reflexivity |].
  simpl in H. apply andb_true_iff in H. destruct H as [Hv H].
  destruct v as [| | | | l | | |]; try discriminate Hv.
  destruct l as [| [| | | protocolName | | | |] l]; try discriminate Hv.
  cbn [selectProtocol offers existsb].
  destruct (String.eqb protocolName "TCPROS"); cbn [orb].
  - unfold Publisher.hostAndPort, SplitHostPort_Addr.
    rewrite (ParseInt_itoa _ Hp). reflexivity.
  - exact (IH H).
Qed.

(** C4 (as the code has it). [requestTopic] for a topic that is not
    published returns status 0 with "No such topic". For a published
    topic and a list of protocol entries it returns status 1 with
    "Success": with ["TCPROS", host, port] of the publisher's listener
    when TCPROS is among the entries, and with the empty list when it
    is not. *)
Theorem C4_requestTopic (callerID topic : string) (protocols : list iface)
        (w : world) :
  (publishers (node w) !! topic = None ->
   requestTopic callerID topic protocols w
   = Done (ISlice [IInt 0; IString "No such topic"; INil], None) w)
  /\ (forall (p : ptr) (pub : Publisher.defaultPublisher),
         publishers (node w) !! topic = Some p ->
         pubs w !! p = Some pub ->
         (lport (Publisher.listener pub) < 2 ^ 31)%N ->
         forallb protocolEntry protocols = true ->
         requestTopic callerID topic protocols w
         = Done (ISlice [IInt 1; IString "Success";
                         ISlice (if offers "TCPROS" protocols
                                 then [IString "TCPROS";
                                       IString (lhost (Publisher.listener pub));
                                       IInt (Z.of_N (lport (Publisher.listener pub)))]
                                 else [])], None) w).
Proof.
  split.
  - intros H. unfold requestTopic. run. rewrite H. reflexivity.
  - intros p pub H Hpub Hport Hentries. unfold requestTopic. run.
    rewrite H, Hpub, (selectProtocol_entries pub protocols Hport Hentries).
    reflexivity.
Qed.

(** C4, the claim as stated fails: a published topic, a peer that
    offers UDPROS only; the answer is a success with an empty list,
    not the failure "No such topic". *)
Lemma C4_no_TCPROS_is_success :
  publishers (node Example.advertising) !! "/chatter" = Some 0
  /\ offers "TCPROS" [ISlice [IString "UDPROS"]] = false
  /\ requestTopic "/listener" "/chatter" [ISlice [IString "UDPROS"]]
                  Example.advertising
     = Done (ISlice [IInt 1; IString "Success"; ISlice []], None)
            Example.advertising
  /\ forall v : iface,
       requestTopic "/listener" "/chatter" [ISlice [IString "UDPROS"]]
                    Example.advertising
       <> Done (ISlice [IInt 0; IString "No such topic"; v], None)
               Example.advertising.
Proof.
  split; [vm_compute; reflexivity |].
  split; [reflexivity |].
  assert (E : requestTopic "/listener" "/chatter" [ISlice [IString "UDPROS"]]
                           Example.advertising
              = Done (ISlice [IInt 1; IString "Success"; ISlice []], None)
                     Example.advertising)
    by (vm_compute; reflexivity).
  split; [exact E |].
  intros v H. rewrite E in H. discriminate H.
Qed.

(** [for ... range] with a body that only performs an effect. *)
Lemma forM_emit {A} (f : A -> effect) (l : list A) : forall w : world,
  forM l (fun x => emit (f x)) w
  = Done tt {| node := node w; pubs := pubs w; subs := subs w;
               srvs := srvs w; done := done w ++ map f l |}.
Proof.
  induction l as [| x l IH]; intros w; simpl.
  - rewrite app_nil_r. destruct w; reflexivity.
  - run. rewrite IH. simpl. rewrite <- app_assoc. reflexivity.
Qed.

(** What [getPublications] answers: for each entry of the map, in the
    order of the iteration, the topic and the publisher itself. *)
Lemma getPublications_pairs (callerID : string) (w : world) :
  getPublications env callerID w
  = Done (ISlice [IInt 1; IString "Success";
                  ISlice (map (fun tp => ISlice [IString tp.1; IPublisher tp.2])
                              (range env ptr (publishers (node w))))],
          None) w.
Proof.
  unfold getPublications.
  assert (C : forall l : list (string * ptr),
             collectM l (fun '(topic, typ) =>
                           mret (ISlice [IString topic; IPublisher typ])) w
             = Done (map (fun tp => ISlice [IString tp.1; IPublisher tp.2]) l) w).
  { induction l as [| [t p] l IH]; simpl; [reflexivity |].
    run. run_in IH. rewrite IH. reflexivity. }
  run. run_in C. rewrite C. reflexivity.
Qed.

End SlaveAPI.

(** ** The life of a node *)

Section NodeLife.

Import Node.

Context (env : Env).

(** C9 (the code at the failing input). The node advertises and
    subscribes to "/chatter" with type std_msgs/String:
    [getSubscriptions] pairs the topic with the type name, while
    [getPublications] pairs it with the publisher object. *)
Theorem C9_getPublications_pairs_publisher :
  getSubscriptions Example.env "/rosnode" Example.subscribed
  = Done (ISlice [IInt 1; IString "Success";
                  ISlice [ISlice [IString "/chatter";
                                  IString "std_msgs/String"]]], None)
         Example.subscribed
  /\ getPublications Example.env "/rosnode" Example.subscribed
     = Done (ISlice [IInt 1; IString "Success";
                     ISlice [ISlice [IString "/chatter"; IPublisher 0]]], None)
            Example.subscribed
  /\ (Publisher.msgType <$> pubs Example.subscribed !! 0)
     = Some Example.String_type.
Proof.
  split; [vm_compute; reflexivity |].
  split; vm_compute; reflexivity.
Qed.

(** C1 (the code at the failing input). In the namespace "/" the
    topic "chatter" resolves to "/chatter". Two calls of
    [NewPublisherWithCallbacks] with "chatter" make two publishers and
    register twice with the master: the map is read at the name as
    given and written at the resolved name. *)
Theorem C1_second_call_registers_again :
  let create :=
    NewPublisherWithCallbacks Example.env "chatter" Example.String_type
                              None None in
  let w1 := world_of (create Example.started) in
  let w2 := world_of (create w1) in
  remap Example.env (nameResolver (node Example.started)) "chatter" = "/chatter"
  /\ create Example.started = Done 0 w1
  /\ create w1 = Done 1 w2
  /\ length (callsOf "registerPublisher" (done w2)) = 2
  /\ publishers (node w2) !! "chatter" = None
  /\ publishers (node w2) !! "/chatter" = Some 1.
Proof.
  cbv zeta.
  split; [reflexivity |].
  split; [vm_compute; reflexivity |].
  split; [vm_compute; reflexivity |].
  split; [vm_compute; reflexivity |].
  split; vm_compute; reflexivity.
Qed.

(** When the name given is already the resolved one, a second call
    returns the publisher of the first and calls nobody. *)
Lemma NewPublisherWithCallbacks_again (topic : string)
      (msgType msgType' : MessageType)
      (cc dc cc' dc' : option callback) (w w1 : world) (p : ptr) :
  remap env (nameResolver (node w)) topic = topic ->
  NewPublisherWithCallbacks env topic msgType cc dc w = Done p w1 ->
  NewPublisherWithCallbacks env topic msgType' cc' dc' w1 = Done p w1.
Proof.
  intros R. unfold NewPublisherWithCallbacks. run.
  destruct (publishers (node w) !! topic) as [q |] eqn:E.
  - intros H. inversion H. subst. rewrite E. reflexivity.
  - cbn [node]. rewrite R.
    destruct (callRosAPI env _ _ _); [| discriminate].
    unfold newDefaultPublisher. cbn [node pubs].
    destruct (Publisher.newDefaultPublisher _ _ _ _ _ _); [| discriminate].
    run. cbn [node pubs]. intros H. inversion H. subst. cbn [node].
    unfold set_publishers at 1. cbn [publishers].
    rewrite lookup_insert_eq. reflexivity.
Qed.

(** [for ... range] over a map, with a body that performs one effect
    on the value. *)
Lemma forM_emit_values (f : ptr -> effect) (l : list (string * ptr)) :
  forall w : world,
    forM l (fun '(_, x) => emit (f x)) w
    = Done tt {| node := node w; pubs := pubs w; subs := subs w;
                 srvs := srvs w; done := done w ++ map f l.*2 |}.
Proof.
  induction l as [| [k x] l IH]; intros w; simpl.
  - rewrite app_nil_r. destruct w; reflexivity.
  - run. run_in IH. rewrite IH. simpl. rewrite <- app_assoc. reflexivity.
Qed.


(** *** The liveness flag *)

Lemma keeps_ret {A} (a : A) : keeps_down (mret a : M A).
Proof. intros w H. exact H. Qed.

Lemma keeps_bind {A B} (m : M A) (f : A -> M B) :
  keeps_down m -> (forall a : A, keeps_down (f a)) -> keeps_down (m ≫= f).
Proof.
  intros Hm Hf w H. specialize (Hm w H). run.
  destruct (m w) as [a w' | v w' | w']; simpl in *;
    [exact (Hf a w' Hm) | exact Hm | exact Hm].
Qed.

Lemma keeps_get : keeps_down get.
Proof. intros w H. exact H. Qed.

Lemma keeps_panic {A} (v : iface) : keeps_down (panic v : M A).
Proof. intros w H. exact H. Qed.

Lemma keeps_Fatalf {A} : keeps_down (Fatalf : M A).
Proof. intros w H. exact H. Qed.

Lemma keeps_emit (e : effect) : keeps_down (emit e).
Proof. intros w H. exact H. Qed.

Lemma keeps_modify (f : defaultNode -> defaultNode) :
  (forall n : defaultNode, ok n = false -> ok (f n) = false) ->
  keeps_down (modify f).
Proof. intros Hf w H. exact (Hf _ H). Qed.

Lemma keeps_alloc (m : M ptr) :
  (forall w : world, node (world_of (m w)) = node w) -> keeps_down m.
Proof. intros Hm w H. unfold down. rewrite Hm. exact H. Qed.

Lemma keeps_derefSubscriber (p : ptr) : keeps_down (derefSubscriber p).
Proof. intros w H. unfold derefSubscriber. destruct (subs w !! p); exact H. Qed.

Lemma keeps_derefPublisher (p : ptr) : keeps_down (derefPublisher p).
Proof. intros w H. unfold derefPublisher. destruct (pubs w !! p); exact H. Qed.

Lemma keeps_storeSubscriber (p : ptr) (s : defaultSubscriber) :
  keeps_down (storeSubscriber p s).
Proof. intros w H. exact H. Qed.

Lemma keeps_newDefaultPublisher (name : string) (msgType : MessageType)
      (cc dc : option callback) :
  keeps_down (newDefaultPublisher env name msgType cc dc).
Proof.
  intros w H. unfold newDefaultPublisher.
  destruct (Publisher.newDefaultPublisher _ _ _ _ _ _); exact H.
Qed.

Lemma keeps_forM {A} (l : list A) (body : A -> M unit) :
  (forall x : A, keeps_down (body x)) -> keeps_down (forM l body).
Proof.
  intros Hb. induction l as [| x l IH]; simpl;
    [apply keeps_ret | apply keeps_bind; [apply Hb | intros _; exact IH]].
Qed.

Lemma keeps_collectM {A B} (l : list A) (body : A -> M B) :
  (forall x : A, keeps_down (body x)) -> keeps_down (collectM l body).
Proof.
  intros Hb. induction l as [| x l IH]; simpl; [apply keeps_ret |].
  apply keeps_bind; [apply Hb | intros y].
  apply keeps_bind; [exact IH | intros ys; apply keeps_ret].
Qed.

Ltac keeps :=
  repeat first
    [ apply keeps_ret | apply keeps_get | apply keeps_emit
    | apply keeps_panic | apply keeps_Fatalf
    | apply keeps_derefSubscriber | apply keeps_derefPublisher
    | apply keeps_storeSubscriber | apply keeps_newDefaultPublisher
    | apply keeps_alloc; intros ?; reflexivity
    | apply keeps_modify; intros ? ?; (assumption || reflexivity)
    | apply keeps_forM; intros [? ?]
    | apply keeps_collectM; intros [? ?]
    | apply keeps_bind; [| intros ?]
    | match goal with
      | |- keeps_down (match ?x with _ => _ end) => destruct x
      | |- keeps_down (if ?x then _ else _) => destruct x
      end ].

Lemma keeps_SpinOnce : keeps_down SpinOnce.
Proof. unfold SpinOnce. keeps. Qed.

Lemma keeps_Spin (turns : nat) : keeps_down (Spin turns).
Proof.
  induction turns as [| turns IH]; simpl; [apply keeps_ret |].
  apply keeps_bind; [unfold OK; keeps | intros [|]];
    [apply keeps_bind; [apply keeps_SpinOnce | intros _; exact IH]
    | apply keeps_ret].
Qed.

Lemma keeps_exec (o : op) : keeps_down (exec env o).
Proof.
  destruct o; cbn [exec];
    try apply keeps_Spin; try apply keeps_SpinOnce;
    unfold forget, interrupted, OK, getBusStats, getBusInfo, getmasterURI,
      shutdown, getPid, getSubscriptions, getPublications, paramUpdate,
      publisherUpdate, requestTopic, NewPublisher,
      NewPublisherWithCallbacks, NewSubscriber, subscriberGone,
      NewServiceClient, NewServiceServer, jobChanSend, Shutdown, GetParam,
      SetParam, HasParam, SearchParam, DeleteParam, storeOk,
      pubListChanSend, appendCallback, call, resolve;
    keeps.
  apply keeps_Spin.
Qed.

Lemma keeps_after_ops (l : list op) : forall w : world,
  down w -> down (after_ops env l w).
Proof.
  induction l as [| o l IH]; intros w H; simpl; [exact H |].
  apply IH. exact (keeps_exec o w H).
Qed.

(** The loop that sets the parameters leaves the node as it is. *)
Lemma setParams_node (l : list (string * string)) : forall w : world,
  node (world_of (setParams env l w)) = node w.
Proof.
  induction l as [| [k v] l IH]; intros w; simpl; [reflexivity |].
  run. destruct (callRosAPI env _ _ _); [| reflexivity].
  run_in IH. rewrite IH. reflexivity.
Qed.

(** C7. A node that [newDefaultNode] returns has the flag on. The
    signal handler, the [shutdown] call of the slave API and
    [Shutdown] write false to it, and no operation of the node turns
    it back on: once it is off it is off after every operation and
    after every sequence of operations, and [OK] answers false. *)
Theorem C7_liveness_monotone :
  (forall (name : string) (args : list string) (opts : list NodeOption)
          (w : world),
      newDefaultNode env name args opts = Done None w -> ok (node w) = true)
  /\ (forall w : world,
         ok (node (world_of (interrupted w))) = false
         /\ ok (node (world_of (shutdown "" "" w))) = false
         /\ ok (node (world_of (Shutdown env w))) = false)
  /\ (forall (o : op) (w : world),
         ok (node w) = false -> ok (node (world_of (exec env o w))) = false)
  /\ (forall (l : list op) (w : world),
         ok (node w) = false ->
         ok (node (after_ops env l w)) = false
         /\ OK (after_ops env l w) = Done false (after_ops env l w)).
Proof.
  split; [| split; [| split]].
  - intros name args opts w. unfold newDefaultNode, construct.
    destruct (qualifyNodeName env name) as [[ns nodeName] | err];
      [| intros H; discriminate H].
    set (sp := specials (processArguments args)).
    destruct (match sp !! "__hostname" with
              | Some v => (v, String.eqb v "localhost")
              | None =>
                  match sp !! "__ip" with
                  | Some v => (v, String.eqb v "::1" || HasPrefix v "127.")
                  | None => determineHost env
                  end
              end) as [hostname onlyLocalhost].
    run.
    match goal with
    | |- context [setParams env ?l ?w0] =>
        pose proof (setParams_node l w0) as P;
        destruct (setParams env l w0) as [[e |] w' | v w' | w']
    end; try (intros H; discriminate H).
    destruct (netListen env) as [listener | e]; [| intros H; discriminate H].
    intros H. inversion H. subst w. cbn [node].
    simpl in P. rewrite P. reflexivity.
  - intros w. split; [reflexivity |]. split; [reflexivity |].
    unfold Shutdown. run.
    pose proof (forM_emit_values SubscriberShutdown) as F1.
    pose proof (forM_emit_values PublisherShutdown) as F2.
    pose proof (forM_emit_values ServerShutdown) as F3.
    run_in F1. run_in F2. run_in F3.
    cbn [node]. rewrite F1. cbn [node]. rewrite F2. cbn [node]. rewrite F3.
    reflexivity.
  - intros o w H. exact (keeps_exec o w H).
  - intros l w H. pose proof (keeps_after_ops l w H) as D.
    split; [exact D |]. unfold OK. run. unfold down in D. rewrite D.
    reflexivity.
Qed.

End NodeLife.

(** ** The properties at the example process *)


Lemma C4_requestTopic_witness :
  Node.requestTopic "/listener" "/chatter"
    [ISlice [IString "UDPROS"]; ISlice [IString "TCPROS"]] Example.advertising
  = Node.Done (ISlice [IInt 1; IString "Success";
                       ISlice [IString "TCPROS"; IString "127.0.0.1";
                               IInt 40000]], None) Example.advertising.
Proof.
  destruct (Node.pubs Example.advertising !! 0) as [pub |] eqn:E;
    [| vm_compute in E; discriminate E].
  assert (L : Publisher.listener pub = {| lhost := "127.0.0.1"; lport := 40000 |})
    by (vm_compute in E; inversion E; reflexivity).
  pose proof (proj2 (C4_requestTopic "/listener" "/chatter"
                       [ISlice [IString "UDPROS"]; ISlice [IString "TCPROS"]]
                       Example.advertising) 0 pub) as H.
  rewrite L in H. apply H.
  - vm_compute. reflexivity.
  - exact E.
  - reflexivity.
  - reflexivity.
Defined.

Lemma C5_publisherUpdate_witness :
  Node.publisherUpdate "/master" "/nothing" [IInt 1] Example.subscribed
  = Node.Done (ISlice [IInt 0; IString "No such topic"; IInt 0], None)
              Example.subscribed
  /\ (Node.pubListChan
        <$> Node.subs (Node.world_of
              (Node.publisherUpdate "/master" "/chatter"
                 (map IString ["http://a:1"; "http://b:2"])
                 Example.subscribed)) !! 0)
     = Some [[]; ["http://a:1"; "http://b:2"]].
Proof.
  split.
  - apply (proj1 (C5_publisherUpdate "/master" "/nothing" [IInt 1] []
                    Example.subscribed)).
    vm_compute. reflexivity.
  - destruct (Node.subs Example.subscribed !! 0) as [s |] eqn:E;
      [| vm_compute in E; discriminate E].
    rewrite (proj2 (C5_publisherUpdate "/master" "/chatter" []
                      ["http://a:1"; "http://b:2"] Example.subscribed) 0 s);
      [| vm_compute; reflexivity | exact E].
    vm_compute in E. inversion E. vm_compute. reflexivity.
Defined.


Lemma C7_liveness_monotone_witness :
  Node.ok (Node.node Example.subscribed) = true
  /\ Node.ok (Node.node (Node.world_of
                (Node.shutdown "/rosnode" "bye" Example.subscribed))) = false
  /\ Node.ok (Node.node
       (Node.after_ops Example.env
          [Node.CallNewPublisher "other" Example.String_type;
           Node.CallSpin 3; Node.CallNewSubscriber "other" Example.String_type 1]
          (Node.world_of
             (Node.shutdown "/rosnode" "bye" Example.subscribed)))) = false.
Proof.
  pose proof (C7_liveness_monotone Example.env) as [_ [S [_ A]]].
  split; [vm_compute; reflexivity |].
  split; [vm_compute; reflexivity |].
  exact (proj1 (A _ _ (proj1 (proj2 (S (Example.subscribed)))))).
Defined.

Lemma C10_publisherUpdate_panics_witness :
  Node.publisherUpdate "/master" "/chatter" [IString "http://a:1"; IInt 5]
                       Example.subscribed
  = Node.Panicked Node.typeAssertion Example.subscribed.
Proof.
  apply (C10_publisherUpdate_panics "/master" "/chatter"
           [IString "http://a:1"; IInt 5] 0 Example.subscribed).
  - vm_compute. reflexivity.
  - right. left. intros s H. discriminate H.
Defined.

(** ** More on the session *)

Section SessionRuns.

Import Session.

Lemma after_snd (pre : list effect) (k : list effect * final) :
  (after pre k).2 = k.2.
Proof. reflexivity. Qed.

Lemma after_after (p p' : list effect) (k : list effect * final) :
  after p (after p' k) = after (p ++ p') k.
Proof. unfold after. simpl. rewrite app_assoc. reflexivity. Qed.

Lemma after_nil (k : list effect * final) : after [] k = k.
Proof. destruct k. reflexivity. Qed.

Lemma recovered_not_streaming (session : remoteSubscriberSession) (v : iface)
      (queue : list payload) :
  (recovered session v).2 <> Streaming queue.
Proof.
  destruct v; simpl; try discriminate.
  destruct (errorChan session); discriminate.
Qed.

(** The bound on the pending queue holds along every run of the loop,
    whatever arrives and however the writes end. *)
Lemma loop_queue_bound (session : remoteSubscriberSession)
      (evs : list event) : forall queue queue' : list payload,
  length queue <= queueMaxSize ->
  (loop session queue evs).2 = Streaming queue' ->
  length queue' <= queueMaxSize.
Proof.
  induction evs as [| ev evs IH]; intros queue queue' H E.
  - simpl in E. inversion E. subst. exact H.
  - destruct ev as [msg | | w1 w2].
    + exact (IH _ _ (enqueue_length_le queue msg H) E).
    + discriminate E.
    + cbn [loop] in E. destruct queue as [| msg queue]; [exact (IH _ _ H E) |].
      assert (H' : length queue <= queueMaxSize) by (simpl in H; lia).
      rewrite after_snd in E.
      destruct w1 as [| | e];
        [| exact (IH _ _ H' E)
         | exfalso; exact (recovered_not_streaming session (IError e) _ E)].
      rewrite after_snd in E.
      destruct w2 as [| | e];
        [exact (IH _ _ H' E) | exact (IH _ _ H' E)
         | exfalso; exact (recovered_not_streaming session (IError e) _ E)].
Qed.

(** X1. Whatever the peer sends, whatever arrives on the channels and
    however the writes end, a session that is still streaming holds at
    most 100 pending payloads. *)
Theorem session_queue_never_exceeds_capacity
        (session : remoteSubscriberSession) (read : list header + error)
        (written : option error) (evs : list event) (queue : list payload) :
  (start session read written evs).2 = Streaming queue ->
  length queue <= 100.
Proof.
  unfold start. destruct read as [headers | e].
  - destruct (negb _ || negb _).
    + intros E. exfalso. exact (recovered_not_streaming session _ _ E).
    + rewrite after_snd. destruct written as [e |].
      * intros E. exfalso. exact (recovered_not_streaming session _ _ E).
      * apply loop_queue_bound. simpl. unfold queueMaxSize. lia.
  - intros E. exfalso. exact (recovered_not_streaming session _ _ E).
Qed.

Lemma loop_messages_then (session : remoteSubscriberSession)
      (msgs : list payload) (evs : list event) : forall queue : list payload,
  loop session queue (map msgChanRecv msgs ++ evs)
  = loop session (fold_left enqueue msgs queue) evs.
Proof.
  induction msgs as [| msg msgs IH]; intros queue; simpl; [reflexivity |].
  apply IH.
Qed.

(** Successful turns of the timer send the pending payloads oldest
    first, one per turn. *)
Lemma loop_flush (session : remoteSubscriberSession) (ms : list payload)
      (queue : list payload) (evs : list event) :
  loop session (ms ++ queue) (repeat flushed (length ms) ++ evs)
  = after (flat_map frame ms) (loop session queue evs).
Proof.
  induction ms as [| m ms IH]; simpl.
  - rewrite after_nil. reflexivity.
  - rewrite IH, !after_after. reflexivity.
Qed.

(** X2. After a compatible handshake, payloads that arrive and are then
    flushed without failure reach the connection as frames, each its
    32-bit length followed by its bytes, in the order of arrival; of
    more than 100 unflushed payloads the last 100 do, and the queue is
    empty afterwards. *)
Theorem session_delivers_in_order (session : remoteSubscriberSession)
        (headers : list header) (msgs : list payload) :
  compatible session headers ->
  start session (inl headers) None
        (map msgChanRecv msgs ++ repeat flushed (Nat.min (length msgs) 100))
  = (ConnWriteHeader (resHeaders session)
       :: flat_map frame (drop (length msgs - 100) msgs),
     Streaming []).
Proof.
  intros C. unfold start.
  rewrite (proj2 (compatible_test session headers) C).
  rewrite loop_messages_then.
  rewrite enqueue_all_drop by (simpl; unfold queueMaxSize; lia).
  simpl app. unfold queueMaxSize.
  set (q := drop (length msgs - 100) msgs).
  assert (L : Nat.min (length msgs) 100 = length q)
    by (unfold q; rewrite length_drop; lia).
  rewrite L.
  pose proof (loop_flush session q [] []) as F.
  rewrite !app_nil_r in F. rewrite F.
  unfold after. simpl. rewrite app_nil_r. reflexivity.
Qed.

(** X3. When the peer's header cannot be read, or the response header
    cannot be written, the session fails with the matching error and no
    data frame is ever written, whatever arrives later. *)
Theorem session_handshake_io_failure (session : remoteSubscriberSession)
        (headers : list header) (e : error) (written : option error)
        (evs : list event) :
  (filter is_conn_write (start session (inr e) written evs).1 = []
   /\ failed_with (start session (inr e) written evs).2
        (errorString "Failed to read connection header."))
  /\ (compatible session headers ->
      filter is_conn_write (start session (inl headers) (Some e) evs).1
      = [ConnWriteHeader (resHeaders session)]
      /\ failed_with (start session (inl headers) (Some e) evs).2
           (errorString "Failed to write response header.")).
Proof.
  split.
  - unfold start. split.
    + apply recovered_writes_nothing.
    + apply recovered_error.
  - intros C. unfold start.
    rewrite (proj2 (compatible_test session headers) C).
    split.
    + unfold after. cbn [fst]. rewrite filter_app.
      rewrite recovered_writes_nothing. reflexivity.
    + rewrite after_snd. apply recovered_error.
Qed.

(** X4. A quit signal ends the session at once: payloads still pending
    are dropped without being written, and nothing that comes later has
    any effect. *)
Theorem session_quit_drops_pending (session : remoteSubscriberSession)
        (headers : list header) (msgs : list payload) (later : list event) :
  compatible session headers ->
  start session (inl headers) None
        (map msgChanRecv msgs ++ quitChanRecv :: later)
  = ([ConnWriteHeader (resHeaders session)], Returned).
Proof.
  intros C. unfold start.
  rewrite (proj2 (compatible_test session headers) C).
  rewrite loop_messages_then. reflexivity.
Qed.

Lemma at_key_insert (m : gmap string string) (k k' v : string) :
  at_key (<[k' := v]> m) k = if String.eqb k' k then v else at_key m k.
Proof.
  unfold at_key. destruct (String.eqb_spec k' k) as [E | E].
  - subst. rewrite lookup_insert_eq. reflexivity.
  - rewrite lookup_insert_ne by exact E. reflexivity.
Qed.

(** X5. A field of the peer's header is read as the value of the last
    entry with that key, and as the empty string when there is none. *)
Theorem headerMap_last_entry_wins (headers : list header) (k : string) :
  at_key (headerMap headers) k = lastValue k headers
  /\ (Forall (fun h => key h <> k) headers ->
      at_key (headerMap headers) k = "")
  /\ (forall (h : header),
         at_key (headerMap (headers ++ [h])) (key h) = value h).
Proof.
  assert (G : forall (hs : list header) (m : gmap string string),
             at_key (fold_left (fun m h => <[key h := value h]> m) hs m) k
             = fold_left (fun acc h => if String.eqb (key h) k
                                       then value h else acc)
                         hs (at_key m k)).
  { induction hs as [| h hs IH]; intros m; simpl; [reflexivity |].
    rewrite IH, at_key_insert. reflexivity. }
  assert (E : at_key (headerMap headers) k = lastValue k headers).
  { unfold headerMap, lastValue. rewrite G. reflexivity. }
  split; [exact E |]. split.
  - intros F. rewrite E. unfold lastValue. clear E.
    generalize "". induction F as [| h hs Hh F IH]; intros acc; simpl.
    + reflexivity.
    + destruct (String.eqb_spec (key h) k) as [E' | _]; [contradiction |].
      apply IH.
  - intros h. unfold headerMap. rewrite fold_left_app. simpl.
    rewrite at_key_insert, String.eqb_refl. reflexivity.
Qed.

End SessionRuns.

(** ** More on the publisher's goroutines *)

Section PublisherRuns.

Import Publisher.

Lemma listenRemoteSubscriber_run (conns : list nat) (err : error)
      (rest : list (nat + error)) : forall st : state,
  listenRemoteSubscriber st (map inl conns ++ inr err :: rest)
  = ({| pub := set_sessions (pub st)
                (sessions (pub st)
                 ++ map ISession (seq (length (store st)) (length conns)));
        store := store st ++ map (newRemoteSubscriberSession (pub st)) conns |},
     map GoSessionStart (seq (length (store st)) (length conns))
     ++ [ListenerErrorChanSend err]).
Proof.
  induction conns as [| conn conns IH]; intros st.
  - simpl. rewrite !app_nil_r, set_sessions_same. destruct st. reflexivity.
  - cbn [map app listenRemoteSubscriber accepted].
    rewrite IH. cbn [pub store sessions set_sessions].
    rewrite length_app, Nat.add_1_r, <- !app_assoc. reflexivity.
Qed.

(** X6. The accepting goroutine of a publisher turns the connections
    accepted before the first error of [Accept] into sessions, appended
    to the list in the order of acceptance, each with the publisher's
    type name and MD5 sum and started once; it then reports that error
    and accepts nothing that comes after it. *)
Theorem listenRemoteSubscriber_until_error (st : state) (conns : list nat)
        (err : error) (rest : list (nat + error)) :
  let r := listenRemoteSubscriber st (map inl conns ++ inr err :: rest) in
  let fresh := seq (length (store st)) (length conns) in
  sessions (pub r.1) = sessions (pub st) ++ map ISession fresh
  /\ store r.1 = store st ++ map (newRemoteSubscriberSession (pub st)) conns
  /\ r.2 = map GoSessionStart fresh ++ [ListenerErrorChanSend err]
  /\ (forall (p : ptr) (session : Session.remoteSubscriberSession),
         In p fresh -> store r.1 !! p = Some session ->
         Session.typeName session = Name (msgType (pub st))
         /\ Session.md5sum session = MD5Sum (msgType (pub st))
         /\ Session.errorChan session = sessionErrorChan (pub st)).
Proof.
  cbv zeta. rewrite listenRemoteSubscriber_run. cbn [fst snd pub store].
  split; [reflexivity |]. split; [reflexivity |]. split; [reflexivity |].
  intros p session I L. apply in_seq in I.
  rewrite lookup_app_r in L by lia.
  rewrite list_lookup_fmap in L.
  destruct (conns !! (p - length (store st))) as [conn |]; [| discriminate L].
  inversion L. subst session. repeat split.
Qed.

Lemma ready_msg (pub : defaultPublisher) (msg : payload) :
  is_Some (msgChan pub) -> ready pub (msgChanRecv msg) = true.
Proof. intros H. simpl. apply bool_decide_eq_true_2. exact H. Qed.

(** Messages that arrive one after the other are each handed to every
    session of the list, and leave the publisher as it is. *)
Lemma loop_messages (pub : defaultPublisher) (ss : list ptr)
      (msgs : list payload) (evs : list event) :
  asSessions (sessions pub) = Some ss ->
  is_Some (msgChan pub) ->
  loop pub (map msgChanRecv msgs ++ evs)
  = match loop pub evs with
    | Some (effs, fin) => Some (flat_map (fanOut ss) msgs ++ effs, fin)
    | None => None
    end.
Proof.
  intros A R. induction msgs as [| msg msgs IH].
  - simpl. destruct (loop pub evs) as [[effs fin] |]; reflexivity.
  - cbn [map app loop]. rewrite (ready_msg pub msg R).
    cbn [handle]. rewrite A, IH.
    destruct (loop pub evs) as [[effs fin] |]; [| reflexivity].
    simpl. unfold fanOut. rewrite <- app_assoc. reflexivity.
Qed.



(** X9. When the accepting goroutine reports an error the control loop
    only closes the listener and ends: no session is told to quit, the
    list is kept, and the topic is not unregistered at the master. *)
Theorem publisher_listener_error_leaves_sessions (pub : defaultPublisher)
        (ss : list ptr) (msgs : list payload) (err : error)
        (later : list event) :
  asSessions (sessions pub) = Some ss ->
  is_Some (msgChan pub) ->
  is_Some (listenerErrorChan pub) ->
  start pub (map msgChanRecv msgs ++ listenerErrorRecv err :: later)
  = Some (WaitGroupAdd :: GoListenRemoteSubscriber
            :: flat_map (fanOut ss) msgs ++ [ListenerClose; WaitGroupDone],
          Exited pub).
Proof.
  intros A R L. unfold start. rewrite (loop_messages pub ss msgs _ A R).
  cbn [loop ready]. rewrite (bool_decide_eq_true_2 _ L). reflexivity.
Qed.


End PublisherRuns.

(** ** The arguments of the command line *)

Section Arguments.

Import Node.









End Arguments.

(** ** Making a node *)

Section Construction.

Import Node.

Context (env : Env).

Lemma did_nil (w : world) : did w [] = w.
Proof. unfold did. rewrite app_nil_r. destruct w; reflexivity. Qed.

Lemma did_did (w : world) (l l' : list effect) :
  did (did w l) l' = did w (l ++ l').
Proof. unfold did. cbn [node pubs subs srvs done]. rewrite app_assoc. reflexivity. Qed.

(** The loop over the parameters sets them one by one, in the order
    given, and stops at the first that the master refuses. *)
Lemma setParams_run (l : list (string * string)) : forall w : world,
  (Forall (paramAccepted env (node w)) l
   /\ setParams env l w = Done None (did w (map (setParamCall (node w)) l)))
  \/ (exists (pre : list (string * string)) (kv : string * string)
             (post : list (string * string)) (err : error),
         l = pre ++ kv :: post
         /\ Forall (paramAccepted env (node w)) pre
         /\ callRosAPI env (masterURI (node w)) "setParam"
                       [IString (qualifiedName (node w));
                        IString kv.1; IString kv.2] = inr err
         /\ setParams env l w
            = Done (Some err)
                   (did w (map (setParamCall (node w)) (pre ++ [kv])))).
Proof.
  induction l as [| [k v] l IH]; intros w.
  - left. split; [constructor |]. simpl. rewrite did_nil. reflexivity.
  - cbn [setParams]. run.
    destruct (callRosAPI env (masterURI (node w)) "setParam"
                         [IString (qualifiedName (node w));
                          IString k; IString v]) as [x | err] eqn:E.
    + change {| node := node w; pubs := pubs w; subs := subs w;
                srvs := srvs w;
                done := done w
                        ++ [CallRosAPI (masterURI (node w)) "setParam"
                              [IString (qualifiedName (node w));
                               IString k; IString v]] |}
        with (did w [setParamCall (node w) (k, v)]).
      destruct (IH (did w [setParamCall (node w) (k, v)]))
        as [[F R] | (pre & kv & post & err & L & F & C & R)];
        cbn [did node] in *.
      * left. split.
        -- constructor; [exists x; exact E | exact F].
        -- run_in R. rewrite R.
           change {| node := node w; pubs := pubs w; subs := subs w;
                     srvs := srvs w;
                     done := done w ++ [setParamCall (node w) (k, v)] |}
             with (did w [setParamCall (node w) (k, v)]).
           rewrite did_did. reflexivity.
      * right. exists ((k, v) :: pre), kv, post, err.
        split; [rewrite L; reflexivity |].
        split; [constructor; [exists x; exact E | exact F] |].
        split; [exact C |].
        run_in R. rewrite R.
        change {| node := node w; pubs := pubs w; subs := subs w;
                  srvs := srvs w;
                  done := done w ++ [setParamCall (node w) (k, v)] |}
          with (did w [setParamCall (node w) (k, v)]).
        rewrite did_did. reflexivity.
    + right. exists [], (k, v), l, err.
      split; [reflexivity |]. split; [constructor |].
      split; [exact E |]. reflexivity.
Qed.

End Construction.

(** The run of [construct] once the name is qualified. *)
Ltac construct_in env H :=
  set (sp := Node.specials (Node.processArguments _)) in H;
  destruct (match sp !! "__hostname" with
            | Some v => (v, String.eqb v "localhost")
            | None =>
                match sp !! "__ip" with
                | Some v =>
                    (v, String.eqb v "::1" || Node.HasPrefix v "127.")
                | None => Node.determineHost env
                end
            end) as [hostname onlyLocalhost];
  cbv [mbind mret Node.M_bind Node.M_ret Node.get Node.emit Node.modify
       Node.Fatalf Node.freshWorld
       Node.node Node.pubs Node.subs Node.srvs Node.done] in H;
  match type of H with
  | context [Node.setParams env ?l ?w0] =>
      destruct (setParams_run env l w0)
        as [[F R] | (pre & kv & post & e & L & F & C & R)];
      rewrite R in H; clear R;
      cbv beta iota delta [Node.did Node.node Node.pubs Node.subs
                           Node.srvs Node.done] in H;
      cbv beta iota delta [Node.did Node.node Node.pubs Node.subs
                           Node.srvs Node.done] in F
  end.

Section NewNode.

Import Node.

Context (env : Env).


(** X13. When [newDefaultNode] returns an error, either the name could
    not be qualified and nothing at all was done, or the master
    refused a parameter of the command line: the parameters before it
    in the iteration were set, none after it was tried, the signal
    handler stays installed, and the listener of the slave API was
    never opened. *)
Theorem newDefaultNode_error (name : string) (args : list string)
        (opts : list NodeOption) (err : error) (w : world) :
  newDefaultNode env name args opts = Done (Some err) w ->
  (qualifyNodeName env name = inr err /\ w = freshWorld)
  \/ (exists (pre : list (string * string)) (kv : string * string)
             (post : list (string * string)),
         range env string (params (processArguments args))
         = pre ++ kv :: post
         /\ Forall (paramAccepted env (node w)) pre
         /\ callRosAPI env (masterURI (node w)) "setParam"
                       [IString (qualifiedName (node w));
                        IString kv.1; IString kv.2] = inr err
         /\ done w = SignalNotify :: Go signalHandler
                       :: map (setParamCall (node w)) (pre ++ [kv])
         /\ xmlrpcHandler (node w) = []
         /\ xmlrpcURI (node w) = "").
Proof.
  intros H. unfold newDefaultNode, construct in H.
  destruct (qualifyNodeName env name) as [[ns nodeName] | err'].
  - right. construct_in env H.
    + destruct (netListen env); discriminate H.
    + injection H as <- <-. cbn [node pubs subs srvs done].
      exists pre, kv, post.
      repeat (split; [first [exact L | exact F | exact C | reflexivity] |]).
      reflexivity.
  - left. injection H as <- <-. split; reflexivity.
Qed.

End NewNode.

(** ** Publishers, subscribers and servers of a node *)

Section Registries.

Import Node.

Context (env : Env).

(** A call that creates a publisher leaves the name resolver as it is. *)
Lemma NewPublisherWithCallbacks_nameResolver (topic : string)
      (msgType : MessageType) (cc dc : option callback) (w w1 : world)
      (p : ptr) :
  NewPublisherWithCallbacks env topic msgType cc dc w = Done p w1 ->
  nameResolver (node w1) = nameResolver (node w).
Proof.
  unfold NewPublisherWithCallbacks. run.
  destruct (publishers (node w) !! topic) as [q |].
  - intros H. inversion H. reflexivity.
  - cbn [node]. destruct (callRosAPI env _ _ _); [| discriminate].
    unfold newDefaultPublisher. cbn [node pubs].
    destruct (Publisher.newDefaultPublisher _ _ _ _ _ _); [| discriminate].
    run. intros H. inversion H. reflexivity.
Qed.

Lemma subs_world (n : defaultNode) (ps : list Publisher.defaultPublisher)
      (ss : list defaultSubscriber) (vs : list defaultServiceServer)
      (es : list effect) :
  subs {| node := n; pubs := ps; subs := ss; srvs := vs; done := es |} = ss.
Proof. reflexivity. Qed.

(** X14. [NewPublisher] called again for a topic returns the publisher
    of the first call, with no call of the master and no new
    goroutine, whenever resolving the resolved name gives the same
    name again; the message type of the second call plays no part. *)
Theorem NewPublisher_again_when_resolution_is_stable (topic : string)
        (msgType msgType' : MessageType) (w w1 : world) (p : ptr) :
  remap env (nameResolver (node w)) (remap env (nameResolver (node w)) topic)
  = remap env (nameResolver (node w)) topic ->
  NewPublisher env topic msgType w = Done p w1 ->
  NewPublisher env topic msgType' w1 = Done p w1.
Proof.
  intros R. unfold NewPublisher. run. intros H.
  rewrite (NewPublisherWithCallbacks_nameResolver _ _ _ _ _ _ _ H).
  exact (NewPublisherWithCallbacks_again env _ msgType msgType'
           None None None None w w1 p R H).
Qed.

(** X15. When the listener of a new publisher cannot be bound,
    [NewPublisherWithCallbacks] panics with the error of the bind:
    by then the topic is registered at the master, while the node has
    no publisher for it and starts none. *)
Theorem NewPublisherWithCallbacks_bind_failure (topic : string)
        (msgType : MessageType) (cc dc : option callback) (w : world)
        (v : iface) (err : error) :
  let registration :=
    [IString (qualifiedName (node w));
     IString (remap env (nameResolver (node w)) topic);
     IString (Name msgType); IString (xmlrpcURI (node w))] in
  publishers (node w) !! topic = None ->
  callRosAPI env (masterURI (node w)) "registerPublisher" registration
  = inl v ->
  listenRandomPort env (length (pubs w)) = inr err ->
  NewPublisherWithCallbacks env topic msgType cc dc w
  = Panicked (IError err)
             (did w [CallRosAPI (masterURI (node w)) "registerPublisher"
                                registration]).
Proof.
  cbv zeta. intros N C L. unfold NewPublisherWithCallbacks. run.
  rewrite N. cbn [node]. rewrite C.
  unfold newDefaultPublisher. cbn [node pubs]. rewrite L. reflexivity.
Qed.

(** X16. [NewSubscriber] called again for a topic returns the
    subscriber of the first call and appends the callback after those
    it has: the master is not called, no goroutine is started, the
    node is unchanged, and the message type of the second call plays
    no part. *)
Theorem NewSubscriber_again_appends_callback (topic : string)
        (msgType msgType' : MessageType) (cb cb' : callback)
        (w w1 : world) (sub : ptr) :
  NewSubscriber env topic msgType cb w = Done sub w1 ->
  exists s : defaultSubscriber,
    subs w1 !! sub = Some s
    /\ NewSubscriber env topic msgType' cb' w1
       = Done sub
              {| node := node w1; pubs := pubs w1;
                 subs := <[sub := {| subTopic := subTopic s;
                                     subMsgType := subMsgType s;
                                     callbacks := callbacks s ++ [cb'];
                                     pubListChan := pubListChan s |}]>
                           (subs w1);
                 srvs := srvs w1; done := done w1 |}.
Proof.
  unfold NewSubscriber. run.
  destruct (subscribers (node w) !! remap env (nameResolver (node w)) topic)
    as [q |] eqn:E.
  - destruct (subs w !! q) as [s |] eqn:Q; [| discriminate].
    intros H. injection H as <- <-.
    cbn [node pubs subs srvs done]. rewrite E, !subs_world.
    assert (B : q < length (subs w)) by (apply lookup_lt_Some in Q; exact Q).
    rewrite list_lookup_insert_eq by exact B.
    eexists. split; reflexivity.
  - cbn [node]. destruct (callRosAPI env _ _ _) as [r | e]; [| discriminate].
    destruct r as [| | | | list | | |]; try discriminate.
    destruct (asStrings list) as [publishers |]; [| discriminate].
    run. cbn [node subs].
    rewrite lookup_app_r by lia. rewrite Nat.sub_diag. cbn [lookup list_lookup].
    intros H. injection H as <- <-.
    cbn [node pubs subs srvs done]. rewrite ?subs_world.
    unfold set_subscribers at 1 2. cbn [nameResolver subscribers].
    rewrite lookup_insert_eq. rewrite ?subs_world.
    rewrite list_lookup_insert_eq by (rewrite length_app; simpl; lia).
    eexists. split; reflexivity.
Qed.

(** X17. [NewServiceServer] for a service that has a server shuts that
    server down first. When the new server is made it takes the place
    of the old one in the node; when it cannot be made the call
    returns nil and the node keeps the server that was shut down. *)
Theorem NewServiceServer_replaces (service : string) (srvType : ServiceType)
        (handler : callback) (options : list ServiceServerOption)
        (w : world) (old : ptr) :
  let name := remap env (nameResolver (node w)) service in
  servers (node w) !! name = Some old ->
  (serviceServerBinds env name = true ->
   NewServiceServer env service srvType handler options w
   = Done (Some (length (srvs w)))
          {| node := set_servers (<[name := length (srvs w)]>
                                    (servers (node w))) (node w);
             pubs := pubs w; subs := subs w;
             srvs := srvs w
                     ++ [{| serverService := name;
                            serverSrvType := srvType;
                            serverHandler := handler;
                            serverOpts := srvServerOpts (node w) ++ options |}];
             done := done w ++ [ServerShutdown old] |})
  /\ (serviceServerBinds env name = false ->
      NewServiceServer env service srvType handler options w
      = Done None (did w [ServerShutdown old])).
Proof.
  cbv zeta. intros S. split; intros B; unfold NewServiceServer; run;
    rewrite S; cbn [node]; rewrite B; reflexivity.
Qed.

End Registries.

(** ** Jobs *)

Section Jobs.

Import Node.

Context (env : Env).

Lemma set_jobChan_same (n : defaultNode) : set_jobChan (jobChan n) n = n.
Proof. destruct n. reflexivity. Qed.

Lemma after_ops_cons (o : op) (l : list op) (w : world) :
  after_ops env (o :: l) w = after_ops env l (world_of (exec env o w)).
Proof. reflexivity. Qed.

(** X18. Successive calls of [SpinOnce] run the pending jobs oldest
    first, one per call, and leave the others pending; with nothing
    pending a call does nothing. *)
Theorem SpinOnce_runs_oldest_first (k : nat) (w : world) :
  after_ops env (repeat CallSpinOnce k) w
  = {| node := set_jobChan (drop k (jobChan (node w))) (node w);
       pubs := pubs w; subs := subs w; srvs := srvs w;
       done := done w ++ map RunJob (take k (jobChan (node w))) |}.
Proof.
  revert w. induction k as [| k IH]; intros w.
  - cbn [repeat after_ops fold_left]. rewrite drop_0, take_0.
    cbn [map]. rewrite app_nil_r, set_jobChan_same. destruct w; reflexivity.
  - cbn [repeat]. rewrite after_ops_cons, IH. cbn [exec].
    unfold SpinOnce. run.
    destruct (jobChan (node w)) as [| j pending] eqn:J.
    + cbn [world_of]. rewrite J, drop_nil, take_nil. reflexivity.
    + cbn [world_of node pubs subs srvs done].
      rewrite <- app_assoc. reflexivity.
Qed.

(** X19. Once the flag is off, whatever the node is asked to do next,
    [Spin] returns at once: no pending job is run and nothing
    changes. *)
Theorem Spin_returns_once_down (l : list op) (turns : nat) (w : world) :
  ok (node w) = false ->
  Spin (S turns) (after_ops env l w) = Done true (after_ops env l w).
Proof.
  intros H. pose proof (keeps_after_ops env l w H) as D.
  cbn [Spin]. unfold OK. run. unfold down in D. rewrite D. reflexivity.
Qed.

End Jobs.

(** ** More on the slave API *)

Section SlaveAPIMore.

Import Node.

Context (env : Env).

(** X20. [getSubscriptions] answers status 1 with "Success" and, for
    every subscriber of the node in the order of the iteration, the
    pair of its topic and of the name of its message type; it changes
    nothing. *)
Theorem getSubscriptions_pairs (callerID : string) (w : world) :
  (forall (t : string) (p : ptr),
      In (t, p) (range env ptr (subscribers (node w))) ->
      is_Some (subs w !! p)) ->
  getSubscriptions env callerID w
  = Done (ISlice [IInt 1; IString "Success";
                  ISlice (map (fun tp =>
                                 ISlice [IString tp.1;
                                         IString (from_option
                                                    (fun s => Name (subMsgType s))
                                                    "" (subs w !! tp.2))])
                              (range env ptr (subscribers (node w))))],
          None) w.
Proof.
  intros A. unfold getSubscriptions.
  assert (C : forall l : list (string * ptr),
             (forall t p, In (t, p) l -> is_Some (subs w !! p)) ->
             collectM l (fun '(t, s) =>
                           sub ← derefSubscriber s;
                           mret (ISlice [IString t;
                                         IString (Name (subMsgType sub))])) w
             = Done (map (fun tp =>
                            ISlice [IString tp.1;
                                    IString (from_option
                                               (fun s => Name (subMsgType s))
                                               "" (subs w !! tp.2))]) l) w).
  { induction l as [| [t p] l IH]; intros I; simpl; [reflexivity |].
    run. destruct (I t p (or_introl eq_refl)) as [s E]. rewrite E.
    assert (I' : forall t p, In (t, p) l -> is_Some (subs w !! p))
      by (intros t' p' H; exact (I t' p' (or_intror H))).
    specialize (IH I'). run_in IH. rewrite IH. reflexivity. }
  specialize (C _ A). run. run_in C. rewrite C. reflexivity.
Qed.

(** The search stops at the first entry for TCPROS. *)
Lemma selectProtocol_first (pub : Publisher.defaultPublisher)
      (pre post params : list iface) :
  forallb protocolEntry pre = true ->
  offers "TCPROS" pre = false ->
  selectProtocol pub (pre ++ ISlice (IString "TCPROS" :: params) :: post)
  = selectProtocol pub [ISlice [IString "TCPROS"]].
Proof.
  induction pre as [| v pre IH]; intros E O.
  - reflexivity.
  - cbn [forallb] in E. apply andb_true_iff in E. destruct E as [Ev E].
    destruct v as [| | | | l | | |]; try discriminate Ev.
    destruct l as [| [| | | protocolName | | | |] l]; try discriminate Ev.
    cbn [offers existsb] in O. apply orb_false_iff in O. destruct O as [Ov O].
    cbn [app selectProtocol]. rewrite Ov. exact (IH E O).
Qed.

(** X21. [requestTopic] answers from the first entry for TCPROS: what
    that entry holds besides the name, and what follows it in the
    list, well formed or not, is never looked at. *)
Theorem requestTopic_first_TCPROS_decides (callerID topic : string)
        (pre post params : list iface) (w : world) (p : ptr)
        (pub : Publisher.defaultPublisher) :
  publishers (node w) !! topic = Some p ->
  pubs w !! p = Some pub ->
  (lport (Publisher.listener pub) < 2 ^ 31)%N ->
  forallb protocolEntry pre = true ->
  offers "TCPROS" pre = false ->
  requestTopic callerID topic
               (pre ++ ISlice (IString "TCPROS" :: params) :: post) w
  = Done (ISlice [IInt 1; IString "Success";
                  ISlice [IString "TCPROS";
                          IString (lhost (Publisher.listener pub));
                          IInt (Z.of_N (lport (Publisher.listener pub)))]],
          None) w.
Proof.
  intros H Hpub Hport E O. unfold requestTopic. run.
  rewrite H, Hpub, (selectProtocol_first pub pre post params E O).
  rewrite (selectProtocol_entries pub [ISlice [IString "TCPROS"]] Hport eq_refl).
  reflexivity.
Qed.

(** X22. An entry that is not a list starting with a name, met before
    any entry for TCPROS, makes [requestTopic] panic: it does not
    answer, whatever follows in the list. *)
Theorem requestTopic_malformed_entry_panics (callerID topic : string)
        (pre post : list iface) (bad : iface) (w : world) (p : ptr)
        (pub : Publisher.defaultPublisher) :
  publishers (node w) !! topic = Some p ->
  pubs w !! p = Some pub ->
  forallb protocolEntry pre = true ->
  offers "TCPROS" pre = false ->
  protocolEntry bad = false ->
  requestTopic callerID topic (pre ++ bad :: post) w
  = Panicked (match bad with
              | ISlice [] => indexOutOfRange
              | _ => typeAssertion
              end) w.
Proof.
  intros H Hpub E O B. unfold requestTopic. run. rewrite H, Hpub.
  assert (S : selectProtocol pub (pre ++ bad :: post)
              = SelectionPanic (match bad with
                                | ISlice [] => indexOutOfRange
                                | _ => typeAssertion
                                end)).
  { clear H Hpub. induction pre as [| v pre IH].
    - destruct bad as [| | | | l | | |]; try reflexivity.
      destruct l as [| [| | | n | | | |] l]; try reflexivity.
      discriminate B.
    - cbn [forallb] in E. apply andb_true_iff in E. destruct E as [Ev E].
      destruct v as [| | | | l | | |]; try discriminate Ev.
      destruct l as [| [| | | protocolName | | | |] l]; try discriminate Ev.
      cbn [offers existsb] in O. apply orb_false_iff in O.
      destruct O as [Ov O].
      cbn [app selectProtocol]. rewrite Ov. exact (IH E O). }
  rewrite S. reflexivity.
Qed.

End SlaveAPIMore.

(** ** The options of a node *)

Section Options.

Import Node.

Context (env : Env).

(** Of the options given, the last one for service clients counts. *)
Lemma last_client_options (before after : list NodeOption)
      (defaults : list ServiceClientOption) :
  Forall (fun o => forall l, o <> NodeServiceClientOptions l) after ->
  fold_left (fun acc o => match o with
                          | NodeServiceClientOptions l => l
                          | _ => acc
                          end)
            (before ++ NodeServiceClientOptions defaults :: after) []
  = defaults.
Proof.
  intros F. rewrite fold_left_app. cbn [fold_left].
  induction F as [| o after N F IH]; [reflexivity |].
  cbn [fold_left]. destruct o as [l | l]; [| exact IH].
  exfalso. exact (N l eq_refl).
Qed.

(** X23. A service client made by a node carries the options the node
    was made with, followed by the options of the call; of several
    [NodeServiceClientOptions] given to [NewNode] only the last
    counts, the earlier ones are dropped. Making the client changes
    nothing in the node and calls nobody. *)
Theorem NewServiceClient_options (name : string) (args : list string)
        (before after : list NodeOption) (defaults : list ServiceClientOption)
        (service : string) (srvType : ServiceType)
        (options : list ServiceClientOption) (w : world) :
  Forall (fun o => forall l, o <> NodeServiceClientOptions l) after ->
  newDefaultNode env name args
                 (before ++ NodeServiceClientOptions defaults :: after)
  = Done None w ->
  NewServiceClient env service srvType options w
  = Done {| clientNodeID := qualifiedName (node w);
            clientMasterURI := masterURI (node w);
            clientService := remap env (nameResolver (node w)) service;
            clientSrvType := srvType;
            clientOpts := defaults ++ options |} w.
Proof.
  intros A H. unfold NewServiceClient. run.
  replace (srvClientOpts (node w)) with defaults; [reflexivity |].
  unfold newDefaultNode, construct in H.
  destruct (qualifyNodeName env name) as [[ns nodeName] | err];
    [| discriminate H].
  construct_in env H; [| discriminate H].
  destruct (netListen env) as [listener | e]; [| discriminate H].
  injection H as <-. cbn [node set_xmlrpc srvClientOpts].
  symmetry. exact (last_client_options before after defaults A).
Qed.

End Options.

(** ** The objects behind the maps of a node *)

Section Allocation.

Import Node.

Context (env : Env).

Lemma alloc_ret {A} (a : A) : keeps_allocated (mret a : M A).
Proof. intros w H. exact H. Qed.

Lemma alloc_bind {A B} (m : M A) (f : A -> M B) :
  keeps_allocated m -> (forall a : A, keeps_allocated (f a)) ->
  keeps_allocated (m ≫= f).
Proof.
  intros Hm Hf w H. specialize (Hm w H). run.
  destruct (m w) as [a w' | v w' | w']; simpl in *;
    [exact (Hf a w' Hm) | exact Hm | exact Hm].
Qed.

Lemma alloc_get : keeps_allocated get.
Proof. intros w H. exact H. Qed.

Lemma alloc_panic {A} (v : iface) : keeps_allocated (panic v : M A).
Proof. intros w H. exact H. Qed.

Lemma alloc_Fatalf {A} : keeps_allocated (Fatalf : M A).
Proof. intros w H. exact H. Qed.

Lemma alloc_emit (e : effect) : keeps_allocated (emit e).
Proof. intros w H. exact H. Qed.

(** An update of the node that adds no entry to its maps. *)
Lemma alloc_modify (f : defaultNode -> defaultNode) :
  (forall n k p,
      (subscribers (f n) !! k = Some p -> subscribers n !! k = Some p)
      /\ (publishers (f n) !! k = Some p -> publishers n !! k = Some p)
      /\ (servers (f n) !! k = Some p -> servers n !! k = Some p)) ->
  keeps_allocated (modify f).
Proof.
  intros Hf w (Hs & Hp & Hv).
  split; [| split]; intros k p L; cbn [world_of modify node pubs subs srvs] in *.
  - exact (Hs k p (proj1 (Hf _ k p) L)).
  - exact (Hp k p (proj1 (proj2 (Hf _ k p)) L)).
  - exact (Hv k p (proj2 (proj2 (Hf _ k p)) L)).
Qed.

Lemma alloc_derefSubscriber (p : ptr) : keeps_allocated (derefSubscriber p).
Proof.
  intros w H. unfold derefSubscriber. destruct (subs w !! p); exact H.
Qed.

Lemma alloc_derefPublisher (p : ptr) : keeps_allocated (derefPublisher p).
Proof.
  intros w H. unfold derefPublisher. destruct (pubs w !! p); exact H.
Qed.

Lemma alloc_storeSubscriber (p : ptr) (s : defaultSubscriber) :
  keeps_allocated (storeSubscriber p s).
Proof.
  intros w (Hs & Hp & Hv). split; [| split]; intros k q L;
    cbn [world_of storeSubscriber node pubs subs srvs] in *.
  - rewrite length_insert. exact (Hs k q L).
  - exact (Hp k q L).
  - exact (Hv k q L).
Qed.

Lemma alloc_forM {A} (l : list A) (body : A -> M unit) :
  (forall x : A, keeps_allocated (body x)) -> keeps_allocated (forM l body).
Proof.
  intros Hb. induction l as [| x l IH]; simpl;
    [apply alloc_ret | apply alloc_bind; [apply Hb | intros _; exact IH]].
Qed.

Lemma alloc_collectM {A B} (l : list A) (body : A -> M B) :
  (forall x : A, keeps_allocated (body x)) ->
  keeps_allocated (collectM l body).
Proof.
  intros Hb. induction l as [| x l IH]; simpl; [apply alloc_ret |].
  apply alloc_bind; [apply Hb | intros y].
  apply alloc_bind; [exact IH | intros ys; apply alloc_ret].
Qed.

Ltac allocs :=
  repeat first
    [ apply alloc_ret | apply alloc_get | apply alloc_emit
    | apply alloc_panic | apply alloc_Fatalf
    | apply alloc_derefSubscriber | apply alloc_derefPublisher
    | apply alloc_storeSubscriber
    | apply alloc_modify; intros ? ? ?;
      (split; [| split]); intros L; exact L
    | apply alloc_forM; intros [? ?]
    | apply alloc_collectM; intros [? ?]
    | apply alloc_bind; [| intros ?]
    | match goal with
      | |- keeps_allocated (match ?x with _ => _ end) => destruct x
      | |- keeps_allocated (if ?x then _ else _) => destruct x
      end ].

(** The worlds a creating call ends in. *)
Ltac alloc_world Hs Hp Hv :=
  split; [| split]; intros ? ? L;
  cbn [world_of node pubs subs srvs done] in *;
  unfold set_subscribers, set_publishers, set_servers in L;
  cbn [subscribers publishers servers] in L;
  rewrite ?length_insert, ?length_app; cbn [length];
  try (apply lookup_insert_Some in L; destruct L as [[_ <-] | [_ L]]);
  first [ lia
        | pose proof (Hs _ _ L); lia
        | pose proof (Hp _ _ L); lia
        | pose proof (Hv _ _ L); lia ].

Lemma alloc_NewPublisherWithCallbacks (topic : string) (msgType : MessageType)
      (cc dc : option callback) :
  keeps_allocated (NewPublisherWithCallbacks env topic msgType cc dc).
Proof.
  intros w (Hs & Hp & Hv). unfold NewPublisherWithCallbacks. run.
  destruct (publishers (node w) !! topic); [alloc_world Hs Hp Hv |].
  cbn [node]. destruct (callRosAPI env _ _ _); [| alloc_world Hs Hp Hv].
  unfold newDefaultPublisher. cbn [node pubs].
  destruct (Publisher.newDefaultPublisher _ _ _ _ _ _);
    [| alloc_world Hs Hp Hv].
  run. alloc_world Hs Hp Hv.
Qed.

Lemma alloc_NewSubscriber (topic : string) (msgType : MessageType)
      (cb : callback) :
  keeps_allocated (NewSubscriber env topic msgType cb).
Proof.
  intros w (Hs & Hp & Hv). unfold NewSubscriber. run.
  destruct (subscribers (node w) !! remap env (nameResolver (node w)) topic)
    as [q |].
  - destruct (subs w !! q); alloc_world Hs Hp Hv.
  - cbn [node]. destruct (callRosAPI env _ _ _) as [r | e];
      [| alloc_world Hs Hp Hv].
    destruct r as [| | | | list | | |]; try alloc_world Hs Hp Hv.
    destruct (asStrings list); [| alloc_world Hs Hp Hv].
    run. cbn [node subs].
    rewrite lookup_app_r by lia. rewrite Nat.sub_diag. cbn [lookup list_lookup].
    alloc_world Hs Hp Hv.
Qed.

Lemma alloc_NewServiceServer (service : string) (srvType : ServiceType)
      (handler : callback) (options : list ServiceServerOption) :
  keeps_allocated (NewServiceServer env service srvType handler options).
Proof.
  intros w (Hs & Hp & Hv). unfold NewServiceServer. run.
  destruct (servers (node w) !! remap env (nameResolver (node w)) service);
    cbn [node]; destruct (serviceServerBinds env _); alloc_world Hs Hp Hv.
Qed.

Lemma alloc_SpinOnce : keeps_allocated SpinOnce.
Proof. unfold SpinOnce. allocs. Qed.

Lemma alloc_Spin (turns : nat) : keeps_allocated (Spin turns).
Proof.
  induction turns as [| turns IH]; simpl; [apply alloc_ret |].
  apply alloc_bind; [unfold OK; allocs | intros [|]];
    [apply alloc_bind; [apply alloc_SpinOnce | intros _; exact IH]
    | apply alloc_ret].
Qed.

Lemma alloc_subscriberGone (name : string) :
  keeps_allocated (subscriberGone name).
Proof.
  unfold subscriberGone. apply alloc_modify. intros n k p.
  split; [| split]; intros L; [| exact L | exact L].
  unfold set_subscribers in L. cbn [subscribers] in L.
  apply lookup_delete_Some in L. exact (proj2 L).
Qed.

Lemma alloc_exec (o : op) : keeps_allocated (exec env o).
Proof.
  destruct o; cbn [exec];
    try apply alloc_Spin; try apply alloc_SpinOnce;
    try apply alloc_subscriberGone;
    try (unfold forget; apply alloc_bind;
         [first [ apply alloc_NewPublisherWithCallbacks
                | apply alloc_NewSubscriber
                | apply alloc_NewServiceServer
                | apply alloc_Spin
                | unfold NewPublisher, resolve;
                  apply alloc_bind;
                  [allocs | intros ?; apply alloc_NewPublisherWithCallbacks] ]
         | intros ?; apply alloc_ret]);
    unfold forget, interrupted, OK, getBusStats, getBusInfo, getmasterURI,
      shutdown, getPid, getSubscriptions, getPublications, paramUpdate,
      publisherUpdate, requestTopic, subscriberGone,
      NewServiceClient, jobChanSend, Shutdown, GetParam,
      SetParam, HasParam, SearchParam, DeleteParam, storeOk,
      pubListChanSend, appendCallback, call, resolve;
    allocs.
Qed.

Lemma alloc_after_ops (l : list op) : forall w : world,
  allocated w -> allocated (after_ops env l w).
Proof.
  induction l as [| o l IH]; intros w H; simpl; [exact H |].
  apply IH. exact (alloc_exec o w H).
Qed.

(** X24. From the node that [newDefaultNode] returns on, whatever the
    node is asked to do and however each request ends, every
    subscriber, publisher and server in the maps of the node is an
    object of the process: [publisherUpdate] never meets a nil
    pointer, and [getSubscriptions] always answers. *)
Theorem registries_never_dangle (name : string) (args : list string)
        (opts : list NodeOption) (w : world) (l : list op) :
  newDefaultNode env name args opts = Done None w ->
  allocated (after_ops env l w)
  /\ (forall callerID topic publishers,
         publisherUpdate callerID topic publishers (after_ops env l w)
         <> Panicked nilDereference (after_ops env l w))
  /\ ((forall m : gmap string ptr, range env ptr m ≡ₚ map_to_list m) ->
      forall callerID, exists r,
        getSubscriptions env callerID (after_ops env l w)
        = Done r (after_ops env l w)).
Proof.
  intros H.
  assert (A0 : allocated w).
  { unfold newDefaultNode, construct in H.
    destruct (qualifyNodeName env name) as [[ns nodeName] | err];
      [| discriminate H].
    construct_in env H; [| discriminate H].
    destruct (netListen env) as [listener | e]; [| discriminate H].
    injection H as <-.
    split; [| split]; intros k p L; cbn in L; rewrite lookup_empty in L;
      discriminate L. }
  pose proof (alloc_after_ops l w A0) as A. split; [exact A |].
  remember (after_ops env l w) as w' eqn:Ew. clear Ew.
  destruct A as (Hs & Hp & Hv).
  split.
  - intros callerID topic publishers. unfold publisherUpdate. run.
    destruct (subscribers (node w') !! topic) as [sub |] eqn:E;
      [| discriminate].
    destruct (asStrings publishers); [| discriminate].
    run. destruct (subs w' !! sub) as [s |] eqn:Q; [discriminate |].
    exfalso. apply lookup_ge_None_1 in Q. specialize (Hs _ _ E). lia.
  - intros R callerID. unfold getSubscriptions. run.
    assert (C : forall ps : list (string * ptr),
               (forall t p, In (t, p) ps -> p < length (subs w')) ->
               exists pairs,
                 collectM ps (fun '(t, s) =>
                                sub ← derefSubscriber s;
                                mret (ISlice [IString t;
                                              IString (Name (subMsgType sub))]))
                          w'
                 = Done pairs w').
    { induction ps as [| [t p] ps IH]; intros I; simpl;
        [eexists; reflexivity |].
      run. destruct (subs w' !! p) as [s |] eqn:Q.
      2:{ exfalso. apply lookup_ge_None_1 in Q.
          specialize (I t p (or_introl eq_refl)). lia. }
      destruct (IH (fun t' p' H' => I t' p' (or_intror H'))) as [pairs E].
      run_in E. rewrite E. eexists. reflexivity. }
    destruct (C (range env ptr (subscribers (node w')))) as [pairs E].
    { intros t p I. apply (Hs t). apply elem_of_map_to_list.
      rewrite <- (R _). apply list_elem_of_In. exact I. }
    run_in E. rewrite E. eexists. reflexivity.
Qed.

End Allocation.

(** ** Writes that fail, and a second shutdown *)

Section Failures.

Import Session.

Lemma loop_of_pending (session : remoteSubscriberSession)
      (msgs : list payload) (evs : list event) :
  length msgs <= 100 ->
  loop session [] (map msgChanRecv msgs ++ evs) = loop session msgs evs.
Proof.
  intros L. rewrite loop_messages_then.
  rewrite enqueue_all_drop by (simpl; unfold queueMaxSize; lia).
  cbn [app]. replace (length msgs - queueMaxSize) with 0
    by (unfold queueMaxSize; lia).
  reflexivity.
Qed.

(** X25. A write that times out is not tried again: the payload was
    taken from the queue before the write and is lost, whether the
    size or the bytes timed out, and the session goes on with the
    payloads behind it. A write that fails otherwise ends the session
    with that error: the payloads behind are never written and what
    arrives later is not served. (An error that is a [net.Error]
    with [Timeout()] true is a timeout, not such a failure.) *)
Theorem session_write_failures (session : remoteSubscriberSession)
        (headers : list header) (msg : payload) (msgs : list payload)
        (w : write_result) (e : error) (later : list event) :
  compatible session headers ->
  length (msg :: msgs) <= 100 ->
  (forall s : string, e <> netError true s) ->
  let run := fun ev =>
    start session (inl headers) None
          (map msgChanRecv (msg :: msgs) ++ ev :: later) in
  let size := [ConnSetDeadline; ConnWriteSize (uint32 (length msg))] in
  run (timeAfter WriteTimeout w)
  = after (ConnWriteHeader (resHeaders session) :: size)
          (loop session msgs later)
  /\ run (timeAfter WriteOk WriteTimeout)
     = after (ConnWriteHeader (resHeaders session) :: frame msg)
             (loop session msgs later)
  /\ filter is_conn_write (run (timeAfter (WriteError e) w)).1
     = [ConnWriteHeader (resHeaders session);
        ConnWriteSize (uint32 (length msg))]
  /\ failed_with (run (timeAfter (WriteError e) w)).2 e
  /\ filter is_conn_write (run (timeAfter WriteOk (WriteError e))).1
     = [ConnWriteHeader (resHeaders session);
        ConnWriteSize (uint32 (length msg)); ConnWritePayload msg]
  /\ failed_with (run (timeAfter WriteOk (WriteError e))).2 e.
Proof.
  intros C L _. cbv zeta. unfold start.
  rewrite (proj2 (compatible_test session headers) C).
  rewrite !(loop_of_pending session (msg :: msgs) _ L).
  cbn [loop]. rewrite !after_after. cbn [app].
  split; [reflexivity |]. split; [reflexivity |].
  unfold after. cbn [fst snd].
  rewrite !filter_app, !recovered_writes_nothing.
  split; [reflexivity |]. split; [apply recovered_error |].
  split; [reflexivity | apply recovered_error].
Qed.

End Failures.

Section SecondShutdown.

Import Node.

Context (env : Env).



End SecondShutdown.

(** ** The further properties at the example process *)

Lemma session_queue_never_exceeds_capacity_witness :
  (Session.start Example.session (inl Example.rightHeaders) None
     [Session.msgChanRecv Example.hello]).2
  = Session.Streaming [Example.hello]
  /\ length [Example.hello] <= 100.
Proof.
  assert (H : (Session.start Example.session (inl Example.rightHeaders) None
                 [Session.msgChanRecv Example.hello]).2
              = Session.Streaming [Example.hello])
    by (vm_compute; reflexivity).
  split; [exact H |].
  exact (session_queue_never_exceeds_capacity Example.session
           (inl Example.rightHeaders) None
           [Session.msgChanRecv Example.hello] [Example.hello] H).
Defined.

Lemma session_delivers_in_order_witness :
  Session.start Example.session (inl Example.rightHeaders) None
    (map Session.msgChanRecv [Example.hello; Example.again]
     ++ repeat Session.flushed
          (Nat.min (length [Example.hello; Example.again]) 100))
  = (Session.ConnWriteHeader (Session.resHeaders Example.session)
       :: flat_map Session.frame
            (drop (length [Example.hello; Example.again] - 100)
                  [Example.hello; Example.again]),
     Session.Streaming []).
Proof.
  apply (session_delivers_in_order Example.session Example.rightHeaders
           [Example.hello; Example.again]).
  split; vm_compute; reflexivity.
Defined.

Lemma session_quit_drops_pending_witness :
  Session.start Example.session (inl Example.rightHeaders) None
    (map Session.msgChanRecv [Example.hello; Example.again]
     ++ Session.quitChanRecv :: [Session.flushed])
  = ([Session.ConnWriteHeader (Session.resHeaders Example.session)],
     Session.Returned).
Proof.
  apply (session_quit_drops_pending Example.session Example.rightHeaders
           [Example.hello; Example.again] [Session.flushed]).
  split; vm_compute; reflexivity.
Defined.



Lemma publisher_listener_error_leaves_sessions_witness :
  Publisher.start (Publisher.pub Example.connected)
    (map Publisher.msgChanRecv [Example.hello]
     ++ Publisher.listenerErrorRecv
          (netError false "use of closed network connection")
     :: [Publisher.msgChanRecv Example.again])
  = Some (Publisher.WaitGroupAdd :: Publisher.GoListenRemoteSubscriber
            :: flat_map (Publisher.fanOut [0; 1]) [Example.hello]
            ++ [Publisher.ListenerClose; Publisher.WaitGroupDone],
          Publisher.Exited (Publisher.pub Example.connected)).
Proof.
  apply (publisher_listener_error_leaves_sessions
           (Publisher.pub Example.connected) [0; 1] [Example.hello]
           (netError false "use of closed network connection")
           [Publisher.msgChanRecv Example.again]).
  - reflexivity.
  - eexists. reflexivity.
  - eexists. reflexivity.
Defined.



Lemma newDefaultNode_error_witness :
  (Node.qualifyNodeName Example.hostile "talker"
   = inr (errorString "refused")
   /\ Example.refused = Node.freshWorld)
  \/ (exists (pre : list (string * string)) (kv : string * string)
             (post : list (string * string)),
         Node.range Example.hostile string
           (Node.params (Node.processArguments ["_rate:=10"]))
         = pre ++ kv :: post
         /\ Forall (Node.paramAccepted Example.hostile
                      (Node.node Example.refused)) pre
         /\ Node.callRosAPI Example.hostile
              (Node.masterURI (Node.node Example.refused)) "setParam"
              [IString (Node.qualifiedName (Node.node Example.refused));
               IString kv.1; IString kv.2]
            = inr (errorString "refused")
         /\ Node.done Example.refused
            = Node.SignalNotify :: Node.Go Node.signalHandler
                :: map (Node.setParamCall (Node.node Example.refused))
                     (pre ++ [kv])
         /\ Node.xmlrpcHandler (Node.node Example.refused) = []
         /\ Node.xmlrpcURI (Node.node Example.refused) = "").
Proof.
  apply (newDefaultNode_error Example.hostile "talker" ["_rate:=10"] []
           (errorString "refused") Example.refused).
  vm_compute. reflexivity.
Defined.

Lemma NewPublisher_again_when_resolution_is_stable_witness :
  Node.NewPublisher Example.env "chatter" Example.String_type
                    Example.advertising
  = Node.Done 0 Example.advertising.
Proof.
  apply (NewPublisher_again_when_resolution_is_stable Example.env "chatter"
           Example.String_type Example.String_type
           Example.started Example.advertising 0).
  - vm_compute. reflexivity.
  - vm_compute. reflexivity.
Defined.

Lemma NewPublisherWithCallbacks_bind_failure_witness :
  Node.NewPublisherWithCallbacks Example.hostile "chatter"
    Example.String_type None None Example.started
  = Node.Panicked (IError (errorString "no port left"))
      (Node.did Example.started
         [Node.CallRosAPI (Node.masterURI (Node.node Example.started))
            "registerPublisher"
            [IString (Node.qualifiedName (Node.node Example.started));
             IString (Node.remap Example.hostile
                        (Node.nameResolver (Node.node Example.started))
                        "chatter");
             IString (Name Example.String_type);
             IString (Node.xmlrpcURI (Node.node Example.started))]]).
Proof.
  apply (NewPublisherWithCallbacks_bind_failure Example.hostile "chatter"
           Example.String_type None None Example.started (IInt 1)
           (errorString "no port left")).
  - vm_compute. reflexivity.
  - vm_compute. reflexivity.
  - reflexivity.
Defined.

Lemma NewSubscriber_again_appends_callback_witness :
  exists s : Node.defaultSubscriber,
    Node.subs Example.subscribed !! 0 = Some s
    /\ Node.NewSubscriber Example.env "chatter" Example.String_type 5
                          Example.subscribed
       = Node.Done 0
           {| Node.node := Node.node Example.subscribed;
              Node.pubs := Node.pubs Example.subscribed;
              Node.subs :=
                <[0 := {| Node.subTopic := Node.subTopic s;
                          Node.subMsgType := Node.subMsgType s;
                          Node.callbacks := Node.callbacks s ++ [5];
                          Node.pubListChan := Node.pubListChan s |}]>
                  (Node.subs Example.subscribed);
              Node.srvs := Node.srvs Example.subscribed;
              Node.done := Node.done Example.subscribed |}.
Proof.
  apply (NewSubscriber_again_appends_callback Example.env "chatter"
           Example.String_type Example.String_type 0 5
           Example.advertising Example.subscribed 0).
  vm_compute. reflexivity.
Defined.

Lemma NewServiceServer_replaces_witness :
  Node.NewServiceServer Example.hostile "add" Example.AddTwoInts 4 []
                        Example.serving
  = Node.Done None (Node.did Example.serving [Node.ServerShutdown 0])
  /\ Node.servers (Node.node Example.serving) !! "/add" = Some 0.
Proof.
  assert (H : Node.servers (Node.node Example.serving)
              !! Node.remap Example.hostile
                   (Node.nameResolver (Node.node Example.serving)) "add"
              = Some 0) by (vm_compute; reflexivity).
  split; [| vm_compute; reflexivity].
  exact (proj2 (NewServiceServer_replaces Example.hostile "add"
                  Example.AddTwoInts 4 [] Example.serving 0 H) eq_refl).
Defined.

Lemma Spin_returns_once_down_witness :
  Node.Spin 3
    (Node.after_ops Example.env
       [Node.JobChanSend 1; Node.CallNewPublisher "chatter" Example.String_type]
       Example.stopped)
  = Node.Done true
      (Node.after_ops Example.env
         [Node.JobChanSend 1;
          Node.CallNewPublisher "chatter" Example.String_type]
         Example.stopped).
Proof.
  apply (Spin_returns_once_down Example.env
           [Node.JobChanSend 1;
            Node.CallNewPublisher "chatter" Example.String_type]
           2 Example.stopped).
  vm_compute. reflexivity.
Defined.

Lemma getSubscriptions_pairs_witness :
  Node.getSubscriptions Example.env "/rosnode" Example.subscribed
  = Node.Done
      (ISlice [IInt 1; IString "Success";
               ISlice (map (fun tp =>
                              ISlice [IString tp.1;
                                      IString (from_option
                                                 (fun s => Name (Node.subMsgType s))
                                                 ""
                                                 (Node.subs Example.subscribed
                                                  !! tp.2))])
                           (Node.range Example.env ptr
                              (Node.subscribers
                                 (Node.node Example.subscribed))))],
       None) Example.subscribed.
Proof.
  assert (R : Node.range Example.env ptr
                (Node.subscribers (Node.node Example.subscribed))
              = [("/chatter", 0)]) by (vm_compute; reflexivity).
  assert (B : 0 < length (Node.subs Example.subscribed))
    by (vm_compute; constructor).
  apply (getSubscriptions_pairs Example.env "/rosnode" Example.subscribed).
  intros t p I. rewrite R in I. destruct I as [E | []].
  inversion E. exact (lookup_lt_is_Some_2 _ _ B).
Defined.

Lemma requestTopic_first_TCPROS_decides_witness :
  Node.requestTopic "/listener" "/chatter"
    ([ISlice [IString "UDPROS"; IInt 1500]]
     ++ ISlice (IString "TCPROS" :: [IBool true]) :: [IInt 5; ISlice []])
    Example.advertising
  = Node.Done
      (ISlice [IInt 1; IString "Success";
               ISlice [IString "TCPROS";
                       IString (lhost (Publisher.listener Example.publisher));
                       IInt (Z.of_N (lport (Publisher.listener
                                              Example.publisher)))]],
       None) Example.advertising.
Proof.
  apply (requestTopic_first_TCPROS_decides "/listener" "/chatter"
           [ISlice [IString "UDPROS"; IInt 1500]] [IInt 5; ISlice []]
           [IBool true] Example.advertising 0 Example.publisher).
  - vm_compute. reflexivity.
  - vm_compute. reflexivity.
  - vm_compute. reflexivity.
  - reflexivity.
  - reflexivity.
Defined.

Lemma requestTopic_malformed_entry_panics_witness :
  Node.requestTopic "/listener" "/chatter"
    ([ISlice [IString "UDPROS"]] ++ IString "TCPROS"
     :: [ISlice [IString "TCPROS"]])
    Example.advertising
  = Node.Panicked Node.typeAssertion Example.advertising.
Proof.
  apply (requestTopic_malformed_entry_panics "/listener" "/chatter"
           [ISlice [IString "UDPROS"]] [ISlice [IString "TCPROS"]]
           (IString "TCPROS") Example.advertising 0 Example.publisher).
  - vm_compute. reflexivity.
  - vm_compute. reflexivity.
  - reflexivity.
  - reflexivity.
  - reflexivity.
Defined.

Lemma NewServiceClient_options_witness :
  Node.NewServiceClient Example.env "add" Example.AddTwoInts
    [Node.ServiceClientTCPTimeout 20] Example.configured
  = Node.Done
      {| Node.clientNodeID := Node.qualifiedName (Node.node Example.configured);
         Node.clientMasterURI := Node.masterURI (Node.node Example.configured);
         Node.clientService :=
           Node.remap Example.env
             (Node.nameResolver (Node.node Example.configured)) "add";
         Node.clientSrvType := Example.AddTwoInts;
         Node.clientOpts := [Node.ServiceClientTCPTimeout 50]
                            ++ [Node.ServiceClientTCPTimeout 20] |}
      Example.configured.
Proof.
  apply (NewServiceClient_options Example.env "talker"
           ["_rate:=10"; "verbose"] [] []
           [Node.ServiceClientTCPTimeout 50] "add" Example.AddTwoInts
           [Node.ServiceClientTCPTimeout 20] Example.configured).
  - constructor.
  - vm_compute. reflexivity.
Defined.

Lemma registries_never_dangle_witness :
  Node.allocated
    (Node.after_ops Example.env
       [Node.CallNewSubscriber "chatter" Example.String_type 0;
        Node.SubscriberGone "/chatter";
        Node.CallNewPublisherWithCallbacks "chatter" Example.String_type
          None None]
       Example.configured).
Proof.
  exact (proj1 (registries_never_dangle Example.env "talker"
                  ["_rate:=10"; "verbose"]
                  [Node.NodeServiceClientOptions
                     [Node.ServiceClientTCPTimeout 50]]
                  Example.configured
                  [Node.CallNewSubscriber "chatter" Example.String_type 0;
                   Node.SubscriberGone "/chatter";
                   Node.CallNewPublisherWithCallbacks "chatter"
                     Example.String_type None None]
                  ltac:(vm_compute; reflexivity))).
Defined.

Lemma session_write_failures_witness :
  Session.start Example.session (inl Example.rightHeaders) None
    (map Session.msgChanRecv (Example.hello :: [Example.again])
     ++ Session.timeAfter Session.WriteTimeout Session.WriteOk
     :: [Session.flushed])
  = Session.after
      (Session.ConnWriteHeader (Session.resHeaders Example.session)
         :: [Session.ConnSetDeadline;
             Session.ConnWriteSize
               (Session.uint32 (length Example.hello))])
      (Session.loop Example.session [Example.again] [Session.flushed]).
Proof.
  refine (proj1 (session_write_failures Example.session Example.rightHeaders
                   Example.hello [Example.again] Session.WriteOk
                   (errorString "broken pipe") [Session.flushed] _ _ _)).
  - split; vm_compute; reflexivity.
  - simpl. lia.
  - intros s H. discriminate H.
Defined.
